(** * CAN bus visual grid monitor: a shallow embedding of [can_visual_grid.py]

    The development follows the class [CANVisualGrid]:

    - text lines are Standard Library strings, that is sequences of code
      points below 256 (the CSV lines of the CAN logger are ASCII);
    - Python integers are [Z]; Python floats (timestamps, Celsius values,
      calibration temperatures) are the rationals [Q] they approximate;
    - the two [defaultdict]s are [gmap]s read through [dd_get], which
      supplies the default row [[0] * 8];
    - an exception is an explicit outcome ([None], [Raise e], [Crashed e]);
    - one iteration of the reader loop and one pygame event are each one
      step of the machine: a step is not interleaved with another one.
*)

From Stdlib Require Import Ascii String QArith Qabs.
From stdpp Require Import gmap strings list.

Local Open Scope string_scope.
Local Open Scope Z_scope.

(** ** Python strings *)

Module PyStr.

Definition ord (c : ascii) : Z := Z.of_N (N_of_ascii c).

(** [str.isspace] on one code point below 256. *)
Definition isspace (c : ascii) : bool :=
  let n := ord c in
  ((9 <=? n) && (n <=? 13)) || ((28 <=? n) && (n <=? 32))
  || (n =? 133) || (n =? 160).

Fixpoint lstrip (s : string) : string :=
  match s with
  | String c s' => if isspace c then lstrip s' else s
  | EmptyString => EmptyString
  end.

Fixpoint rstrip (s : string) : string :=
  match s with
  | EmptyString => EmptyString
  | String c s' =>
      match rstrip s' with
      | EmptyString => if isspace c then EmptyString else String c EmptyString
      | r => String c r
      end
  end.

(** [s.strip()] *)
Definition strip (s : string) : string := rstrip (lstrip s).

(** [s.startswith(p)] *)
Fixpoint startswith (s p : string) : bool :=
  match p with
  | EmptyString => true
  | String a p' =>
      match s with
      | EmptyString => false
      | String b s' => Ascii.eqb a b && startswith s' p'
      end
  end.

(** [bool(s)]: a string is truthy when it is not empty. *)
Definition truthy (s : string) : bool :=
  match s with EmptyString => false | String _ _ => true end.

(** [s.split(',')]: never empty, [n] commas give [n + 1] fields. *)
Fixpoint split_comma (s : string) : list string :=
  match s with
  | EmptyString => [EmptyString]
  | String c s' =>
      if Ascii.eqb c ","%char then EmptyString :: split_comma s'
      else match split_comma s' with
           | f :: fs => String c f :: fs
           | [] => [String c EmptyString]
           end
  end.

(** *** [int(s, base)]

    CPython's [PyLong_FromString]: leading blanks, a sign, at base 16 the
    prefix [0x] or [0X] with one underscore allowed after it, then digits
    below the base separated by single underscores, then trailing blanks
    only.  [None] stands for [ValueError].  The result is not bounded. *)

(** [_PyLong_DigitValue] *)
Definition digit_value (c : ascii) : option Z :=
  let n := ord c in
  if (48 <=? n) && (n <=? 57) then Some (n - 48)
  else if (97 <=? n) && (n <=? 122) then Some (n - 87)
  else if (65 <=? n) && (n <=? 90) then Some (n - 55)
  else None.

Definition digit_below (base : Z) (c : ascii) : option Z :=
  match digit_value c with
  | Some d => if d <? base then Some d else None
  | None => None
  end.

(** The blanks [int] skips: [Py_ISSPACE], and the two Latin-1 spaces that
    the conversion to ASCII turns into a blank. *)
Definition int_isspace (c : ascii) : bool :=
  let n := ord c in
  ((9 <=? n) && (n <=? 13)) || (n =? 32) || (n =? 133) || (n =? 160).

Fixpoint skip_space (s : string) : string :=
  match s with
  | String c s' => if int_isspace c then skip_space s' else s
  | EmptyString => EmptyString
  end.

(** The digit loop: [prev_us] says that the previous character was an
    underscore; the function returns the value read and the rest. *)
Fixpoint scan_digits (base : Z) (s : string) (prev_us : bool) (acc : Z)
  : option (Z * string) :=
  match s with
  | EmptyString => if prev_us then None else Some (acc, EmptyString)
  | String c s' =>
      if Ascii.eqb c "_"%char then
        if prev_us then None else scan_digits base s' true acc
      else
        match digit_below base c with
        | Some d => scan_digits base s' false (base * acc + d)
        | None => if prev_us then None else Some (acc, s)
        end
  end.

(** No leading underscore, and at least one digit. *)
Definition long_from_string_base (base : Z) (s : string)
  : option (Z * string) :=
  match s with
  | EmptyString => None
  | String c _ =>
      if Ascii.eqb c "_"%char then None
      else match digit_below base c with
           | None => None
           | Some _ => scan_digits base s false 0
           end
  end.

Definition skip_sign (s : string) : Z * string :=
  match s with
  | String c s' =>
      if Ascii.eqb c "+"%char then (1, s')
      else if Ascii.eqb c "-"%char then (-1, s')
      else (1, s)
  | EmptyString => (1, s)
  end.

Definition skip_prefix (base : Z) (s : string) : string :=
  match s with
  | String c0 (String c1 r) =>
      if (base =? 16) && Ascii.eqb c0 "0"%char
         && (Ascii.eqb c1 "x"%char || Ascii.eqb c1 "X"%char)
      then match r with
           | String u r' => if Ascii.eqb u "_"%char then r' else r
           | EmptyString => r
           end
      else s
  | _ => s
  end.

Definition int_ (base : Z) (s : string) : option Z :=
  let '(sign, s1) := skip_sign (skip_space s) in
  match long_from_string_base base (skip_prefix base s1) with
  | Some (v, rest) =>
      match skip_space rest with
      | EmptyString => Some (sign * v)
      | String _ _ => None
      end
  | None => None
  end.

(** [c.isdigit()] on one code point below 256: the ASCII digits and the
    superscripts two, three and one. *)
Definition isdigit (c : ascii) : bool :=
  let n := ord c in
  ((48 <=? n) && (n <=? 57)) || (n =? 178) || (n =? 179) || (n =? 185).

End PyStr.

(** ** The frame parser: [parse_can_message] *)

(** One data byte of the loop [for i in range(8)]: the field [parts[4 + i]]
    when it exists and is tagged [0x], else 0.  [None] is the [ValueError]
    of [int(hex_val, 16)]. *)
Definition parse_byte (parts : list string) (i : nat) : option Z :=
  match parts !! (4 + i)%nat with
  | Some field =>
      let hex_val := PyStr.strip field in
      if PyStr.truthy hex_val && PyStr.startswith hex_val "0x"
      then PyStr.int_ 16 hex_val
      else Some 0
  | None => Some 0
  end.

Definition parse_bytes (parts : list string) : option (list Z) :=
  mapM (parse_byte parts) (seq 0 8).

(** [None] is the function's [return None], from a guard or from the
    [except Exception] clause. *)
Definition parse_can_message (line : string) : option (string * list Z) :=
  if PyStr.startswith line "#" || negb (PyStr.truthy (PyStr.strip line))
  then None
  else
    let parts := PyStr.split_comma line in
    if (length parts <? 8)%nat then None
    else
      match parts !! 2%nat with
      | None => None
      | Some field =>
          let can_id := PyStr.strip field in
          if negb (PyStr.startswith can_id "0x") then None
          else match parse_bytes parts with
               | Some byte_values => Some (can_id, byte_values)
               | None => None
               end
      end.

(** ** The monitor's state *)

Inductive Exn := IndexError | ValueError | ZeroDivisionError.

Inductive DisplayMode := HEX | ASCII.

(** A grid cell [(pid, byte_index)]. *)
Definition Cell : Type := string * nat.

(** A calibration point [(actual_temp, combined_value, timestamp)]. *)
Definition CalPoint : Type := Q * Z * Q.

(** The attributes of [CANVisualGrid] that the reader thread and the event
    handler use, and [last_logged_combined], the local variable that
    [read_serial_data] keeps across the iterations of its loop. *)
Record CANVisualGrid := mkGrid {
  display_mode : DisplayMode;
  pid_list : list string;
  current_values : gmap string (list Z);
  change_times : gmap string (list Q);
  total_messages : Z;
  messages_per_second : Z;
  last_fps_time : Q;
  last_message_count : Z;
  scroll_offset : Z;
  selected_cells : list Cell;
  calibration_mode : bool;
  calibration_data : list CalPoint;
  last_logged_combined : option Z
}.

Definition WINDOW_HEIGHT : Z := 900.
Definition CELL_WIDTH : Z := 80.
Definition CELL_HEIGHT : Z := 24.
Definition HEADER_HEIGHT : Z := 40.
Definition PID_COLUMN_WIDTH : Z := 100.
Definition START_X : Z := PID_COLUMN_WIDTH.
Definition START_Y : Z := HEADER_HEIGHT.
Definition max_visible_rows : Z := (WINDOW_HEIGHT - START_Y - 150) / CELL_HEIGHT.

(** [__init__], at the time [now] that [time.time()] returns. *)
Definition init (now : Q) : CANVisualGrid :=
  {| display_mode := HEX;
     pid_list := [];
     current_values := ∅;
     change_times := ∅;
     total_messages := 0;
     messages_per_second := 0;
     last_fps_time := now;
     last_message_count := 0;
     scroll_offset := 0;
     selected_cells := [];
     calibration_mode := false;
     calibration_data := [];
     last_logged_combined := None |}.

(** Attribute assignments.  No assignment to [calibration_data] is needed:
    the class only creates the list, in [__init__]. *)
Definition set_display_mode (st : CANVisualGrid) (v : DisplayMode) :=
  mkGrid v (pid_list st) (current_values st) (change_times st)
    (total_messages st) (messages_per_second st) (last_fps_time st)
    (last_message_count st) (scroll_offset st) (selected_cells st)
    (calibration_mode st) (calibration_data st) (last_logged_combined st).

Definition set_store (st : CANVisualGrid) (pids : list string)
    (vals : gmap string (list Z)) (times : gmap string (list Q)) :=
  mkGrid (display_mode st) pids vals times
    (total_messages st) (messages_per_second st) (last_fps_time st)
    (last_message_count st) (scroll_offset st) (selected_cells st)
    (calibration_mode st) (calibration_data st) (last_logged_combined st).

Definition set_total_messages (st : CANVisualGrid) (v : Z) :=
  mkGrid (display_mode st) (pid_list st) (current_values st) (change_times st)
    v (messages_per_second st) (last_fps_time st)
    (last_message_count st) (scroll_offset st) (selected_cells st)
    (calibration_mode st) (calibration_data st) (last_logged_combined st).

Definition set_fps (st : CANVisualGrid) (rate : Z) (t : Q) (count : Z) :=
  mkGrid (display_mode st) (pid_list st) (current_values st) (change_times st)
    (total_messages st) rate t count (scroll_offset st) (selected_cells st)
    (calibration_mode st) (calibration_data st) (last_logged_combined st).

Definition set_scroll_offset (st : CANVisualGrid) (v : Z) :=
  mkGrid (display_mode st) (pid_list st) (current_values st) (change_times st)
    (total_messages st) (messages_per_second st) (last_fps_time st)
    (last_message_count st) v (selected_cells st)
    (calibration_mode st) (calibration_data st) (last_logged_combined st).

Definition set_selected_cells (st : CANVisualGrid) (v : list Cell) :=
  mkGrid (display_mode st) (pid_list st) (current_values st) (change_times st)
    (total_messages st) (messages_per_second st) (last_fps_time st)
    (last_message_count st) (scroll_offset st) v
    (calibration_mode st) (calibration_data st) (last_logged_combined st).

Definition set_calibration_mode (st : CANVisualGrid) (v : bool) :=
  mkGrid (display_mode st) (pid_list st) (current_values st) (change_times st)
    (total_messages st) (messages_per_second st) (last_fps_time st)
    (last_message_count st) (scroll_offset st) (selected_cells st)
    v (calibration_data st) (last_logged_combined st).

Definition set_last_logged_combined (st : CANVisualGrid) (v : option Z) :=
  mkGrid (display_mode st) (pid_list st) (current_values st) (change_times st)
    (total_messages st) (messages_per_second st) (last_fps_time st)
    (last_message_count st) (scroll_offset st) (selected_cells st)
    (calibration_mode st) (calibration_data st) v.

(** ** The change-tracking store *)

(** [d[k]] on a [defaultdict] whose factory returns [dflt].  Python also
    stores the default under a missing key; the program reads both
    dictionaries through [d[k]] only, so the stored default is never told
    apart from a missing key. *)
Definition dd_get {A : Type} (dflt : list A) (d : gmap string (list A))
    (k : string) : list A :=
  default dflt (d !! k).

Definition zeros : list Z := replicate 8 0.
Definition never : list Q := replicate 8 0%Q.

Definition values_row (st : CANVisualGrid) (pid : string) : list Z :=
  dd_get zeros (current_values st) pid.
Definition times_row (st : CANVisualGrid) (pid : string) : list Q :=
  dd_get never (change_times st) pid.

(** [self.current_values[pid][byte_index]]; [None] is [IndexError]. *)
Definition value_at (st : CANVisualGrid) (c : Cell) : option Z :=
  values_row st c.1 !! c.2.
Definition changed_at (st : CANVisualGrid) (c : Cell) : option Q :=
  times_row st c.1 !! c.2.

Inductive Outcome := Done | Raised (e : Exn).

(** The loop [for i, new_value in enumerate(byte_values)] on the two rows of
    one identifier.  [old_values] is the very list that the loop writes, so
    [old_values[i]] is read from the row as it stands at iteration [i].  An
    [IndexError] leaves the rows as they are at that point. *)
Fixpoint record_bytes (i : nat) (byte_values : list Z) (current_time : Q)
    (vals : list Z) (times : list Q) : list Z * list Q * Outcome :=
  match byte_values with
  | [] => (vals, times, Done)
  | new_value :: rest =>
      match vals !! i with
      | None => (vals, times, Raised IndexError)
      | Some old =>
          if old =? new_value then
            record_bytes (S i) rest current_time (<[i:=new_value]> vals) times
          else if (i <? length times)%nat then
            record_bytes (S i) rest current_time
              (<[i:=new_value]> vals) (<[i:=current_time]> times)
          else (vals, times, Raised IndexError)
      end
  end.

(** ** Console output *)

(** [byte_to_ascii_display] *)
Definition byte_to_ascii_display (byte_value : Z) : ascii :=
  if (32 <=? byte_value) && (byte_value <=? 126)
  then ascii_of_N (Z.to_N byte_value)
  else "."%char.

Definition is_printable_ascii (byte_value : Z) : bool :=
  (32 <=? byte_value) && (byte_value <=? 126).

(** One constructor per [print] call of the class, with the values that the
    f-string interpolates. *)
Inductive Output :=
| LogLine (byte0_val : Z) (ascii0 : ascii) (byte1_val : Z) (ascii1 : ascii)
    (combined : Z)
| CalibrationPrompt (combined : Z)
| CurrentCanValue (combined : Z)
| ErrorGettingInput (e : Exn)
| DisplayModeIs (m : DisplayMode)
| CalibrationOn
| CalibrationOff
| CalibrationTable (points : list CalPoint)
| FormulaReport (m b : Q) (rows : list (Q * Q * Q)) (avg_error : Q)
| SelectionCleared
| Deselected (c : Cell)
| Selected (n : nat) (c : Cell) (value : Z) (ascii_char : ascii)
| LoggingActivated
| Replaced (c : Cell) (value : Z) (ascii_char : ascii).

(** [(byte0_val << 8) | byte1_val] *)
Definition combined_value (byte0_val byte1_val : Z) : Z :=
  Z.lor (Z.shiftl byte0_val 8) byte1_val.

(** ** The reader thread: one iteration of [read_serial_data] *)

(** Lines 206-229: the log of the selected pair, run after the store holds
    the frame of [can_id].  The flag is false when an [IndexError] ended the
    block. *)
Definition log_selection (st : CANVisualGrid) (can_id : string)
    : CANVisualGrid * list Output * bool :=
  match selected_cells st with
  | [c1; c2] =>
      if decide (can_id = c1.1) then
        match value_at st c1, value_at st c2 with
        | Some byte0_val, Some byte1_val =>
            let combined := combined_value byte0_val byte1_val in
            if decide (last_logged_combined st = Some combined)
            then (st, [], true)
            else
              (set_last_logged_combined st (Some combined),
               LogLine byte0_val (byte_to_ascii_display byte0_val)
                       byte1_val (byte_to_ascii_display byte1_val) combined
               :: (if calibration_mode st
                   then [CalibrationPrompt combined] else []),
               true)
        | _, _ => (st, [], false)
        end
      else (st, [], true)
  | _ => (st, [], true)
  end.

(** Lines 195-204: the identifier joins [pid_list] when it is new, then the
    loop runs on its two rows. *)
Definition store_frame (st : CANVisualGrid) (can_id : string)
    (byte_values : list Z) (current_time : Q) : CANVisualGrid * Outcome :=
  let pids :=
    if decide (can_id ∈ pid_list st) then pid_list st
    else (pid_list st ++ [can_id])%list in
  let '(vals, times, outcome) :=
    record_bytes 0 byte_values current_time
      (values_row st can_id) (times_row st can_id) in
  (set_store st pids (<[can_id:=vals]> (current_values st))
     (<[can_id:=times]> (change_times st)),
   outcome).

(** The body of [if result:] for the frame [(can_id, byte_values)] read at
    [current_time].  An exception leaves the [try] block before
    [self.total_messages += 1]; [except Exception: pass] then drops it. *)
Definition record_frame (st : CANVisualGrid) (can_id : string)
    (byte_values : list Z) (current_time : Q) : CANVisualGrid * list Output :=
  let '(st1, outcome) := store_frame st can_id byte_values current_time in
  match outcome with
  | Raised _ => (st1, [])
  | Done =>
      let '(st2, out, ok) := log_selection st1 can_id in
      if ok then (set_total_messages st2 (total_messages st2 + 1), out)
      else (st2, out)
  end.

(** One iteration with a line waiting: [raw] is the decoded line. *)
Definition read_serial_step (st : CANVisualGrid) (raw : string)
    (current_time : Q) : CANVisualGrid * list Output :=
  match parse_can_message (PyStr.strip raw) with
  | Some (can_id, byte_values) => record_frame st can_id byte_values current_time
  | None => (st, [])
  end.

(** ** Calibration: [handle_temperature_input], [calculate_temperature_formula] *)

Inductive Result (A : Type) :=
| Ok (a : A)
| Raise (e : Exn).
Arguments Ok {A} a.
Arguments Raise {A} e.

(** The [try] block reads the first two selected cells and prints the
    combined value; the [except] clause prints the error. *)
Definition handle_temperature_input (st : CANVisualGrid) : list Output :=
  match selected_cells st with
  | c1 :: c2 :: _ =>
      match value_at st c1, value_at st c2 with
      | Some byte0_val, Some byte1_val =>
          [CurrentCanValue (combined_value byte0_val byte1_val)]
      | _, _ => [ErrorGettingInput IndexError]
      end
  | _ => []
  end.

(** [sum], Python's left fold from 0. *)
Definition sum_Z (l : list Z) : Z := fold_left Z.add l 0.
Definition sum_Q (l : list Q) : Q := fold_left Qplus l 0%Q.

(** The denominator [n * sum_x2 - sum_x * sum_x] of the slope. *)
Definition slope_denominator (x_vals : list Z) : Z :=
  Z.of_nat (length x_vals) * sum_Z (map (fun x => x * x) x_vals)
  - sum_Z x_vals * sum_Z x_vals.

(** The function prints and returns nothing: [Ok []] is the early return,
    [Ok [FormulaReport ..]] the printed formula with its test table, and
    [Raise ZeroDivisionError] the division [.. / (n * sum_x2 - sum_x *
    sum_x)] by the integer 0, which no clause of the function catches. *)
Definition calculate_temperature_formula (data : list CalPoint)
    : Result (list Output) :=
  if (length data <? 2)%nat then Ok []
  else
    let x_vals := map (fun point : CalPoint => point.1.2) data in
    let y_vals := map (fun point : CalPoint => point.1.1) data in
    let n := Z.of_nat (length data) in
    let sum_x := sum_Z x_vals in
    let sum_y := sum_Q y_vals in
    let sum_xy :=
      sum_Q (map (fun xy : Z * Q => inject_Z xy.1 * xy.2)%Q
               (zip x_vals y_vals)) in
    let sum_x2 := sum_Z (map (fun x => x * x) x_vals) in
    let den := n * sum_x2 - sum_x * sum_x in
    if den =? 0 then Raise ZeroDivisionError
    else
      let m :=
        ((inject_Z n * sum_xy - inject_Z sum_x * sum_y) / inject_Z den)%Q in
      let b := ((sum_y - m * inject_Z sum_x) / inject_Z n)%Q in
      let predicted (can_val : Z) := (m * inject_Z can_val + b)%Q in
      let rows :=
        map (fun point : CalPoint =>
               (point.1.1, predicted point.1.2,
                Qabs (point.1.1 - predicted point.1.2)))
            data in
      let avg_error :=
        (sum_Q (map (fun point : CalPoint =>
                       Qabs (point.1.1 - predicted point.1.2)) data)
         / inject_Z n)%Q in
      Ok [FormulaReport m b rows avg_error].

(** ** The decode engine: [calculate_temperature_values] *)

(** The description of a candidate: one constructor per f-string. *)
Inductive Desc :=
| AsciiOne (ascii_char : ascii) (value1 : Z)
| MinusOffset (value1 offset : Z)
| AsciiTwo (ascii_string : string) (byte0 byte1 : Z)
| HvacLow (position : Z)
| HvacHigh (position : Z)
| HvacTemp (temp_f position : Z)
| PositionOutside (position : Z)
| BothPrintable
| OnePrintable
| MathOffset (temp_offset : Z)
| Minus40 (desc : string) (test_val : Z).

(** A result tuple [(description, temp_c, temp_f, is_primary)]. *)
Record Candidate := mkCandidate {
  description : Desc;
  temp_c : Q;
  temp_f : Z;
  is_primary : bool
}.

(** [(temp_f - 32) * 5/9] *)
Definition celsius (temp_f : Z) : Q :=
  (inject_Z ((temp_f - 32) * 5) / inject_Z 9)%Q.

Definition single_guess (value1 offset : Z) : list Candidate :=
  let temp_f := value1 - offset in
  let temp_c := celsius temp_f in
  if (32 <=? temp_f) && (temp_f <=? 120)
  then [mkCandidate (MinusOffset value1 offset) temp_c temp_f false]
  else [].

(** Ford's HVAC mapping of the position [int(ascii_string)]. *)
Definition hvac_position (position : Z) : Candidate :=
  if position =? 60 then mkCandidate (HvacLow position) 10 50 true
  else if position =? 90 then mkCandidate (HvacHigh position) 35 95 true
  else if (65 <=? position) && (position <=? 84) then
    let temp_f := position - 5 in
    let temp_c := celsius temp_f in
    mkCandidate (HvacTemp temp_f position) temp_c temp_f true
  else mkCandidate (PositionOutside position) 0 0 true.

Definition hvac_candidates (ascii0 ascii1 : ascii) : Result (list Candidate) :=
  if PyStr.isdigit ascii0 && PyStr.isdigit ascii1 then
    match PyStr.int_ 10 (String ascii0 (String ascii1 EmptyString)) with
    | Some position => Ok [hvac_position position]
    | None => Raise ValueError
    end
  else Ok [].

Definition printable_summary (byte0 byte1 : Z) : list Candidate :=
  if is_printable_ascii byte0 && is_printable_ascii byte1
  then [mkCandidate BothPrintable 0 0 true]
  else if is_printable_ascii byte0 || is_printable_ascii byte1
  then [mkCandidate OnePrintable 0 0 false]
  else [].

Definition legacy_offset (byte0 byte1 : Z) : list Candidate :=
  let temp_offset := (byte0 - 54) * 10 + (byte1 - 48) in
  if (0 <=? temp_offset) && (temp_offset <=? 30)
  then [mkCandidate (MathOffset temp_offset) 0 0 false]
  else [].

(** The list that the last loop runs over. *)
Definition other_interpretations (value1 value2 : Z) : list (string * Z) :=
  [("BE", combined_value value1 value2);
   ("LE", combined_value value2 value1);
   ("ADD", value1 + value2)].

(** The body of that loop for one [(desc, test_val)]. *)
Definition other_candidate (dv : string * Z) : list Candidate :=
  let '(desc, test_val) := dv in
  if String.eqb desc "ADD" && (test_val <? 200) then
    let temp_f := test_val - 40 in
    let temp_c := celsius temp_f in
    if (32 <=? temp_f) && (temp_f <=? 120)
    then [mkCandidate (Minus40 desc test_val) temp_c temp_f false]
    else []
  else [].

Definition calculate_temperature_values (value1 : Z) (value2 : option Z)
    : Result (list Candidate) :=
  match value2 with
  | None =>
      let ascii_char := byte_to_ascii_display value1 in
      Ok (mkCandidate (AsciiOne ascii_char value1) 0 0 false
          :: flat_map (single_guess value1) [0; 40; 50])
  | Some value2 =>
      let byte0 := value1 in
      let byte1 := value2 in
      let ascii0 := byte_to_ascii_display byte0 in
      let ascii1 := byte_to_ascii_display byte1 in
      let ascii_string := String ascii0 (String ascii1 EmptyString) in
      match hvac_candidates ascii0 ascii1 with
      | Raise e => Raise e
      | Ok hvac =>
          Ok (mkCandidate (AsciiTwo ascii_string byte0 byte1) 0 0 true
              :: hvac
              ++ printable_summary byte0 byte1
              ++ legacy_offset byte0 byte1
              ++ flat_map other_candidate
                   (other_interpretations value1 value2))%list
      end
  end.

(** ** The selection and the event handler: [handle_events] *)

(** [get_cell_at_position] *)
Definition get_cell_at_position (st : CANVisualGrid) (mouse_x mouse_y : Z)
    : option Cell :=
  if (mouse_x <? START_X) || (mouse_y <? START_Y) then None
  else if mouse_y >=? START_Y + max_visible_rows * CELL_HEIGHT then None
  else
    let col := (mouse_x - START_X) / CELL_WIDTH in
    let row := (mouse_y - START_Y) / CELL_HEIGHT in
    if (col <? 0) || (col >=? 8) then None
    else
      let actual_row := row + scroll_offset st in
      if (actual_row <? 0) || (actual_row >=? Z.of_nat (length (pid_list st)))
      then None
      else match pid_list st !! Z.to_nat actual_row with
           | Some pid => Some (pid, Z.to_nat col)
           | None => None
           end.

(** [list.remove]: the first occurrence goes. *)
Fixpoint py_remove (c : Cell) (l : list Cell) : list Cell :=
  match l with
  | [] => []
  | x :: r => if decide (x = c) then r else x :: py_remove c r
  end.

(** How the handling of an event ends: the loop goes on, [handle_events]
    returns [False], or an exception leaves it. *)
Inductive Flow := Continue | Stop | Crashed (e : Exn).

(** The left click on [cell] (lines 642-669). *)
Definition select_cell (st : CANVisualGrid) (cell : Cell)
    : CANVisualGrid * list Output * Flow :=
  if decide (cell ∈ selected_cells st) then
    (set_selected_cells st (py_remove cell (selected_cells st)),
     [Deselected cell], Continue)
  else if (length (selected_cells st) <? 2)%nat then
    let st1 := set_selected_cells st (selected_cells st ++ [cell])%list in
    match value_at st1 cell with
    | None => (st1, [], Crashed IndexError)
    | Some value =>
        (st1,
         Selected (length (selected_cells st1)) cell value
           (byte_to_ascii_display value)
         :: (if (length (selected_cells st1) =? 2)%nat
             then [LoggingActivated] else []),
         Continue)
    end
  else
    match selected_cells st with
    | old_cell :: rest =>
        let st1 := set_selected_cells st (rest ++ [cell])%list in
        match value_at st1 cell with
        | None => (st1, [], Crashed IndexError)
        | Some value =>
            (st1, [Replaced cell value (byte_to_ascii_display value)], Continue)
        end
    | [] => (st, [], Crashed IndexError)
    end.

Inductive Key :=
| K_ESCAPE | K_a | K_t | K_RETURN | K_SPACE | K_UP | K_DOWN | K_c | K_other.

(** A pygame event; a click carries what [pygame.mouse.get_pos()] returns
    when it is handled. *)
Inductive Event :=
| QUIT
| KEYDOWN (key : Key)
| MOUSEWHEEL (y : Z)
| MOUSEBUTTONDOWN (button : Z) (mouse_x mouse_y : Z)
| OTHER.

Definition max_offset (st : CANVisualGrid) : Z :=
  Z.max 0 (Z.of_nat (length (pid_list st)) - max_visible_rows).

(** The key [T] (lines 594-612). *)
Definition toggle_calibration (st : CANVisualGrid)
    : CANVisualGrid * list Output * Flow :=
  let st1 := set_calibration_mode st (negb (calibration_mode st)) in
  if calibration_mode st1 then (st1, [CalibrationOn], Continue)
  else
    match calibration_data st1 with
    | [] => (st1, [CalibrationOff], Continue)
    | _ :: _ =>
        let out := [CalibrationOff; CalibrationTable (calibration_data st1)] in
        if (2 <=? length (calibration_data st1))%nat then
          match calculate_temperature_formula (calibration_data st1) with
          | Ok report => (st1, (out ++ report)%list, Continue)
          | Raise e => (st1, out, Crashed e)
          end
        else (st1, out, Continue)
    end.

(** The body of [for event in pygame.event.get()]. *)
Definition handle_event (st : CANVisualGrid) (event : Event)
    : CANVisualGrid * list Output * Flow :=
  match event with
  | QUIT => (st, [], Stop)
  | KEYDOWN K_ESCAPE => (st, [], Stop)
  | KEYDOWN K_a =>
      let m := match display_mode st with HEX => ASCII | ASCII => HEX end in
      (set_display_mode st m, [DisplayModeIs m], Continue)
  | KEYDOWN K_t => toggle_calibration st
  | KEYDOWN K_RETURN =>
      if calibration_mode st && (length (selected_cells st) =? 2)%nat
      then (st, handle_temperature_input st, Continue)
      else (st, [], Continue)
  | KEYDOWN K_SPACE => (st, [], Continue)
  | KEYDOWN K_UP =>
      (set_scroll_offset st (Z.max 0 (scroll_offset st - 1)), [], Continue)
  | KEYDOWN K_DOWN =>
      (set_scroll_offset st (Z.min (max_offset st) (scroll_offset st + 1)),
       [], Continue)
  | KEYDOWN K_c => (set_selected_cells st [], [SelectionCleared], Continue)
  | KEYDOWN K_other => (st, [], Continue)
  | MOUSEWHEEL y =>
      if y >? 0
      then (set_scroll_offset st (Z.max 0 (scroll_offset st - 3)), [], Continue)
      else (set_scroll_offset st (Z.min (max_offset st) (scroll_offset st + 3)),
            [], Continue)
  | MOUSEBUTTONDOWN button mouse_x mouse_y =>
      if button =? 1 then
        match get_cell_at_position st mouse_x mouse_y with
        | Some cell => select_cell st cell
        | None => (st, [], Continue)
        end
      else (st, [], Continue)
  | OTHER => (st, [], Continue)
  end.

Fixpoint handle_events (st : CANVisualGrid) (events : list Event)
    : CANVisualGrid * list Output * Flow :=
  match events with
  | [] => (st, [], Continue)
  | event :: rest =>
      let '(st1, out1, flow) := handle_event st event in
      match flow with
      | Continue =>
          let '(st2, out2, flow2) := handle_events st1 rest in
          (st2, (out1 ++ out2)%list, flow2)
      | _ => (st1, out1, flow)
      end
  end.

(** The state that [draw_grid] writes: the message rate, once a second. *)
Definition draw_grid (st : CANVisualGrid) (current_time : Q) : CANVisualGrid :=
  if Qle_bool 1 (current_time - last_fps_time st)
  then set_fps st (total_messages st - last_message_count st)
         current_time (total_messages st)
  else st.

(** ** The running monitor *)

(** What the two threads do, one step at a time: the reader handles one
    line, or the main loop handles the pending events and draws. *)
Inductive Step :=
| ReaderStep (raw : string) (current_time : Q)
| MainStep (events : list Event) (current_time : Q).

Definition step (st : CANVisualGrid) (s : Step)
    : CANVisualGrid * list Output * Flow :=
  match s with
  | ReaderStep raw current_time =>
      let '(st1, out) := read_serial_step st raw current_time in
      (st1, out, Continue)
  | MainStep events current_time =>
      let '(st1, out, flow) := handle_events st events in
      match flow with
      | Continue => (draw_grid st1 current_time, out, Continue)
      | _ => (st1, out, flow)
      end
  end.

(** A run ends with the main loop. *)
Fixpoint run (st : CANVisualGrid) (steps : list Step)
    : CANVisualGrid * list Output * Flow :=
  match steps with
  | [] => (st, [], Continue)
  | s :: rest =>
      let '(st1, out1, flow) := step st s in
      match flow with
      | Continue =>
          let '(st2, out2, flow2) := run st1 rest in
          (st2, (out1 ++ out2)%list, flow2)
      | _ => (st1, out1, flow)
      end
  end.


(** The frames among the lines a run reads: the lines that parse. *)
Definition is_frame (raw : string) : bool :=
  match parse_can_message (PyStr.strip raw) with
  | Some _ => true
  | None => false
  end.

(** The steps that a run carries out: all of them up to the one that ends
    the main loop. *)
Fixpoint executed (st : CANVisualGrid) (steps : list Step) : list Step :=
  match steps with
  | [] => []
  | s :: rest =>
      let '(st1, _, flow) := step st s in
      match flow with
      | Continue => s :: executed st1 rest
      | _ => [s]
      end
  end.

(** The number of frames among the lines of the reader's steps. *)
Fixpoint frames_read (steps : list Step) : Z :=
  match steps with
  | [] => 0
  | ReaderStep raw _ :: rest => (if is_frame raw then 1 else 0) + frames_read rest
  | MainStep _ _ :: rest => frames_read rest
  end.

(** ** Well-formed states *)

(** Every stored row has the 8 entries of the default row, and every
    selected cell names one of the 8 columns. *)
Definition rows_ok {A : Type} (d : gmap string (list A)) : Prop :=
  forall k row, d !! k = Some row -> length row = 8%nat.

Definition wf (st : CANVisualGrid) : Prop :=
  rows_ok (current_values st)
  /\ rows_ok (change_times st)
  /\ Forall (fun c : Cell => (c.2 < 8)%nat) (selected_cells st).

(** ** Invariants of a run *)

(** The selection holds at most two cells, all different. *)
Definition selection_ok (st : CANVisualGrid) : Prop :=
  NoDup (selected_cells st) /\ (length (selected_cells st) <= 2)%nat.

Definition invariant (st : CANVisualGrid) : Prop :=
  wf st /\ selection_ok st /\ calibration_data st = [].

Definition is_formula_report (o : Output) : bool :=
  match o with
  | FormulaReport _ _ _ _ => true
  | _ => false
  end.

(** The final state, the console output and the way a run from
    [__init__] ends. *)
Definition final (t0 : Q) (steps : list Step) : CANVisualGrid :=
  (run (init t0) steps).1.1.
Definition console (t0 : Q) (steps : list Step) : list Output :=
  (run (init t0) steps).1.2.

(** The output holds no formula report; the flow is not an exception. *)
Definition quiet (out : list Output) : Prop :=
  Forall (fun o => is_formula_report o = false) out.

Definition no_crash (flow : Flow) : Prop := forall e, flow <> Crashed e.

(** A short session: two frames arrive, then the operator clicks byte 6 of
    the first identifier and byte 7 of the second. *)
Definition demo_steps : list Step :=
  [ReaderStep "1,2,0xA,8,0,0,0,0,0,0,0x41,0" 1;
   ReaderStep "1,2,0xB,8,0,0,0,0,0,0,0,0x42" 2;
   MainStep [MOUSEBUTTONDOWN 1 580 40; MOUSEBUTTONDOWN 1 660 64] 3].

(** ** The grid: [get_cell_color], [draw_grid], [draw_info_panel] *)

(** An RGB colour of [__init__]. *)
Definition Color : Type := Z * Z * Z.

Definition WHITE : Color := (255, 255, 255).
Definition GREEN : Color := (0, 255, 0).
Definition BRIGHT_GREEN : Color := (50, 255, 50).
Definition YELLOW : Color := (255, 255, 0).
Definition GRAY : Color := (128, 128, 128).
Definition ORANGE : Color := (255, 165, 0).
Definition PURPLE : Color := (255, 0, 255).
Definition CYAN : Color := (0, 255, 255).
Definition LIGHT_GREEN : Color := (144, 238, 144).

(** What [get_cell_color] returns: one of the colours above, or the tuple
    that lines 287-291 compute in double arithmetic from the age of the
    change, which is kept as the age itself. *)
Inductive Shade :=
| Plain (c : Color)
| Fading (age : Q).

(** [l.index(c)], for a [c] that is in [l]; [None] is [ValueError]. *)
Fixpoint py_index (c : Cell) (l : list Cell) : option nat :=
  match l with
  | [] => None
  | x :: r => if decide (x = c) then Some 0%nat else S <$> py_index c r
  end.

(** [x < y] on the rationals. *)
Definition Qlt_bool (x y : Q) : bool := negb (Qle_bool y x).

(** The colour by the age of the last change (lines 274-293). *)
Definition change_color (change_time now : Q) : Shade :=
  if Qeq_bool change_time 0 then Plain WHITE
  else
    let age := (now - change_time)%Q in
    if Qlt_bool age (1 # 2) then Plain BRIGHT_GREEN
    else if Qlt_bool age 1 then Plain GREEN
    else if Qlt_bool age 2 then Plain YELLOW
    else if Qlt_bool age 5 then Fading age
    else Plain WHITE.

(** [get_cell_color] at the time [now] that [time.time()] returns. *)
Definition get_cell_color (st : CANVisualGrid) (now : Q) (pid : string)
    (byte_index : nat) : Result Shade :=
  let cell : Cell := (pid, byte_index) in
  if decide (cell ∈ selected_cells st) then
    if (length (selected_cells st) =? 1)%nat then Ok (Plain ORANGE)
    else
      match py_index cell (selected_cells st) with
      | None => Raise ValueError
      | Some i => if (i =? 0)%nat then Ok (Plain PURPLE) else Ok (Plain CYAN)
      end
  else
    let by_change :=
      match changed_at st cell with
      | None => Raise IndexError
      | Some change_time => Ok (change_color change_time now)
      end in
    match display_mode st with
    | ASCII =>
        match value_at st cell with
        | None => Raise IndexError
        | Some byte_value =>
            if is_printable_ascii byte_value then
              match changed_at st cell with
              | None => Raise IndexError
              | Some change_time =>
                  if Qlt_bool 0 change_time
                     && Qlt_bool (now - change_time) 2
                  then Ok (Plain BRIGHT_GREEN)
                  else Ok (Plain LIGHT_GREEN)
              end
            else by_change
        end
    | HEX => by_change
    end.

(** [l[i]] for a Python integer [i]: a negative index counts from the end;
    [None] is [IndexError]. *)
Definition py_getitem {A : Type} (l : list A) (i : Z) : option A :=
  if 0 <=? i then l !! Z.to_nat i
  else if - Z.of_nat (length l) <=? i then l !! Z.to_nat (Z.of_nat (length l) + i)
  else None.

(** A rectangle [pygame.Rect(x, y, width, height)] and
    [Rect.collidepoint]. *)
Definition Rect : Type := Z * Z * Z * Z.

Definition collidepoint (r : Rect) (px py : Z) : bool :=
  let '(x, y, w, h) := r in
  (x <=? px) && (px <? x + w) && (y <=? py) && (py <? y + h).

(** The loop [for row_idx, pid_idx in enumerate(range(start_row, end_row))]
    of [draw_grid]: the rows it draws, each with its index on the screen and
    its identifier.  The flag is false when [self.pid_list[pid_idx]]
    raises. *)
Fixpoint draw_rows (pids : list string) (row_idx : Z) (pid_idxs : list Z)
    : list (Z * string) * bool :=
  match pid_idxs with
  | [] => ([], true)
  | pid_idx :: rest =>
      if pid_idx >=? Z.of_nat (length pids) then ([], true)
      else
        match py_getitem pids pid_idx with
        | None => ([], false)
        | Some pid =>
            let '(rows, ok) := draw_rows pids (row_idx + 1) rest in
            ((row_idx, pid) :: rows, ok)
        end
  end.

Definition drawn_rows (st : CANVisualGrid) : list (Z * string) * bool :=
  let start_row := scroll_offset st in
  let end_row :=
    Z.min (start_row + max_visible_rows) (Z.of_nat (length (pid_list st))) in
  draw_rows (pid_list st) 0 (seqZ start_row (end_row - start_row)).

(** The rectangle of the cell in column [col] of the row [row_idx]. *)
Definition cell_rect (row_idx col : Z) : Rect :=
  (START_X + col * CELL_WIDTH, START_Y + row_idx * CELL_HEIGHT,
   CELL_WIDTH, CELL_HEIGHT).

(** The data cells that [draw_grid] draws: for each drawn row, the loop
    [for col in range(8)]. *)
Definition drawn_cells (st : CANVisualGrid) : list (Rect * Cell) :=
  flat_map
    (fun row : Z * string =>
       map (fun col : nat => (cell_rect row.1 (Z.of_nat col), (row.2, col)))
           (seq 0 8))
    (drawn_rows st).1.

(** The analysis lines of [draw_info_panel] (lines 425-446): the first
    three candidates of the single selected cell, or the first four of the
    first two selected cells, each with the colour of its text.  The header
    and the cell lines that the panel draws above them are left out. *)
Definition info_panel_analysis (st : CANVisualGrid)
    : Result (list (Desc * Color)) :=
  match selected_cells st with
  | [] => Ok []
  | [c] =>
      match value_at st c with
      | None => Raise IndexError
      | Some value1 =>
          match calculate_temperature_values value1 None with
          | Raise e => Raise e
          | Ok results =>
              Ok (map (fun r => (description r,
                                 if is_primary r then GREEN else YELLOW))
                      (take 3 results))
          end
      end
  | c1 :: c2 :: _ =>
      match value_at st c1, value_at st c2 with
      | Some value1, Some value2 =>
          match calculate_temperature_values value1 (Some value2) with
          | Raise e => Raise e
          | Ok results =>
              Ok (map (fun r => (description r,
                                 if is_primary r then GREEN else GRAY))
                      (take 4 results))
          end
      | _, _ => Raise IndexError
      end
  end.

(** The two dictionaries hold rows for listed identifiers only. *)
Definition listed_only (st : CANVisualGrid) : Prop :=
  forall k, k ∉ pid_list st ->
    current_values st !! k = None /\ change_times st !! k = None.

Definition scroll_ok (st : CANVisualGrid) : Prop :=
  0 <= scroll_offset st <= max_offset st.

Definition rate_ok (st : CANVisualGrid) : Prop :=
  0 <= last_message_count st <= total_messages st
  /\ 0 <= messages_per_second st.

Fixpoint has_comma (s : string) : bool :=
  match s with
  | EmptyString => false
  | String c s' => Ascii.eqb c ","%char || has_comma s'
  end.

Definition values_nonneg (st : CANVisualGrid) : Prop :=
  forall k row, current_values st !! k = Some row -> Forall (fun v => 0 <= v) row.

(** The combined values of the log lines of an output, in order. *)
Fixpoint logged (out : list Output) : list Z :=
  match out with
  | [] => []
  | LogLine _ _ _ _ combined :: rest => combined :: logged rest
  | _ :: rest => logged rest
  end.

(** No value of the list equals the one before it, [prev] being the one
    before the first. *)
Fixpoint no_repeat (prev : option Z) (l : list Z) : Prop :=
  match l with
  | [] => True
  | x :: rest => prev <> Some x /\ no_repeat (Some x) rest
  end.

Definition last_or (prev : option Z) (l : list Z) : option Z :=
  match last l with
  | Some x => Some x
  | None => prev
  end.

(** The log of a step and the last logged value after it. *)
Definition log_ok (st st' : CANVisualGrid) (out : list Output) : Prop :=
  no_repeat (last_logged_combined st) (logged out)
  /\ last_logged_combined st' = last_or (last_logged_combined st) (logged out).

(** * The frame parser *)

Lemma ord_range c : 0 <= PyStr.ord c < 256.
Proof.
  unfold PyStr.ord. pose proof (N_ascii_bounded c). lia.
Qed.

Lemma digit_below_nonneg base c d :
  PyStr.digit_below base c = Some d -> 0 <= d < base.
Proof.
  unfold PyStr.digit_below, PyStr.digit_value.
  repeat case_match; intros; simplify_eq; lia.
Qed.

Lemma scan_digits_nonneg base s : forall p acc v rest,
  0 <= base -> 0 <= acc ->
  PyStr.scan_digits base s p acc = Some (v, rest) -> 0 <= v.
Proof.
  induction s as [|c s IH]; intros p acc v rest Hb Hacc; simpl.
  - destruct p; intros; simplify_eq; lia.
  - destruct (Ascii.eqb c "_").
    + destruct p; [done|]. eauto.
    + destruct (PyStr.digit_below base c) as [d|] eqn:Hd.
      * apply digit_below_nonneg in Hd. apply IH; [lia|nia].
      * destruct p; intros; simplify_eq; lia.
Qed.

Lemma startswith_0x s :
  PyStr.startswith s "0x" = true ->
  exists r, s = String "0" (String "x" r).
Proof.
  destruct s as [|c0 [|c1 r]]; cbn -[Ascii.eqb]; try done.
  - destruct (Ascii.eqb "0" c0); done.
  - destruct (Ascii.eqb "0" c0) eqn:H0; [|done].
    destruct (Ascii.eqb "x" c1) eqn:H1; [|done].
    apply Ascii.eqb_eq in H0, H1. subst. eauto.
Qed.

Lemma int16_tagged_nonneg s v :
  PyStr.startswith s "0x" = true -> PyStr.int_ 16 s = Some v -> 0 <= v.
Proof.
  intros [r ->]%startswith_0x. unfold PyStr.int_.
  cbn [PyStr.skip_space].
  replace (PyStr.int_isspace "0") with false by reflexivity.
  cbn [PyStr.skip_sign].
  replace (Ascii.eqb "0" "+") with false by reflexivity.
  replace (Ascii.eqb "0" "-") with false by reflexivity.
  unfold PyStr.long_from_string_base.
  destruct (PyStr.skip_prefix 16 _) as [|c s']; [done|].
  destruct (Ascii.eqb c "_"); [done|].
  destruct (PyStr.digit_below 16 c); [|done].
  destruct (PyStr.scan_digits _ _ _ _) as [[w rest]|] eqn:Hs; [|done].
  apply scan_digits_nonneg in Hs; [|lia..].
  destruct (PyStr.skip_space rest); intros; simplify_eq. lia.
Qed.

Lemma truthy_false s : PyStr.truthy s = false <-> s = "".
Proof. destruct s; simpl; split; congruence. Qed.

Lemma startswith_truthy s a p :
  PyStr.startswith s (String a p) = true -> PyStr.truthy s = true.
Proof. destruct s; simpl; congruence. Qed.

Lemma parse_byte_spec parts i v :
  parse_byte parts i = Some v <->
  match parts !! (4 + i)%nat with
  | Some f =>
      if PyStr.startswith (PyStr.strip f) "0x"
      then PyStr.int_ 16 (PyStr.strip f) = Some v
      else v = 0
  | None => v = 0
  end.
Proof.
  unfold parse_byte. destruct (parts !! (4 + i)%nat) as [f|]; [|naive_solver].
  destruct (PyStr.startswith (PyStr.strip f) "0x") eqn:Hp.
  - rewrite (startswith_truthy _ _ _ Hp). done.
  - rewrite andb_false_r. naive_solver.
Qed.

Lemma parse_bytes_lookup parts vals i :
  parse_bytes parts = Some vals -> (i < 8)%nat ->
  exists v, vals !! i = Some v /\ parse_byte parts i = Some v.
Proof.
  unfold parse_bytes. intros H%mapM_Some_1 Hi.
  eapply Forall2_lookup_l in H as (v & Hv & Hp); [|by apply lookup_seq_lt].
  eauto.
Qed.

Lemma parse_bytes_None parts :
  parse_bytes parts = None <-> exists i, (i < 8)%nat /\ parse_byte parts i = None.
Proof.
  unfold parse_bytes. rewrite mapM_None, Exists_exists. split.
  - intros (i & Hi%elem_of_seq & H). exists i. split; [lia|done].
  - intros (i & Hi & H). exists i. split; [apply elem_of_seq; lia|done].
Qed.

Lemma parse_byte_None parts i :
  parse_byte parts i = None <->
  exists f, parts !! (4 + i)%nat = Some f
    /\ PyStr.startswith (PyStr.strip f) "0x" = true
    /\ PyStr.int_ 16 (PyStr.strip f) = None.
Proof.
  unfold parse_byte. destruct (parts !! (4 + i)%nat) as [f|];
    [|split; [done|by intros (f' & ? & _)]].
  destruct (PyStr.startswith (PyStr.strip f) "0x") eqn:Hp.
  - rewrite (startswith_truthy _ _ _ Hp). simpl. split; [eauto|].
    by intros (f' & [= <-] & _ & ?).
  - rewrite andb_false_r. split; [done|].
    intros (f' & [= <-] & ? & _). congruence.
Qed.

(** C3, amended: the parser returns nothing exactly when the line is
    blank, starts with [#], has fewer than 8 fields, has an identifier not
    tagged [0x], or has among the fields 4 to 11 one tagged [0x] that
    [int(.., 16)] rejects; such a line leaves the state as it is.  A value
    above 255 is not rejected: an accepted tagged field gives the
    non-negative integer that [int(.., 16)] returns, an absent or untagged
    field gives 0. *)
Theorem parse_can_message_rejects_and_defaults (line : string) :
  let parts := PyStr.split_comma line in
  (parse_can_message line = None <->
     PyStr.strip line = ""
     \/ PyStr.startswith line "#" = true
     \/ (length parts < 8)%nat
     \/ (exists f, parts !! 2%nat = Some f
           /\ PyStr.startswith (PyStr.strip f) "0x" = false)
     \/ (exists i f, (i < 8)%nat /\ parts !! (4 + i)%nat = Some f
           /\ PyStr.startswith (PyStr.strip f) "0x" = true
           /\ PyStr.int_ 16 (PyStr.strip f) = None))
  /\ (forall can_id byte_values,
        parse_can_message line = Some (can_id, byte_values) ->
        length byte_values = 8%nat
        /\ forall i, (i < 8)%nat ->
             exists v, byte_values !! i = Some v /\ 0 <= v
               /\ match parts !! (4 + i)%nat with
                  | Some f =>
                      if PyStr.startswith (PyStr.strip f) "0x"
                      then PyStr.int_ 16 (PyStr.strip f) = Some v
                      else v = 0
                  | None => v = 0
                  end)
  /\ (parse_can_message line = None ->
      forall st raw now,
        PyStr.strip raw = line -> read_serial_step st raw now = (st, [])).
Proof.
  intros parts.
  assert (forall P Q R : Prop, P /\ Q -> R -> P /\ Q /\ R) as Hsplit by tauto.
  apply Hsplit; clear Hsplit;
    [|by intros Hnone st raw now <-; unfold read_serial_step; rewrite Hnone].
  unfold parse_can_message. fold parts. split.
  - destruct (PyStr.startswith line "#") eqn:Hc; [naive_solver|]. simpl.
    destruct (PyStr.truthy (PyStr.strip line)) eqn:Hb; simpl;
      [|apply truthy_false in Hb; naive_solver].
    assert (PyStr.strip line <> "") as Hb' by (intros E; rewrite E in Hb; done).
    destruct (length parts <? 8)%nat eqn:Hl.
    { apply Nat.ltb_lt in Hl. naive_solver. }
    apply Nat.ltb_ge in Hl.
    destruct (parts !! 2%nat) as [f|] eqn:Hf;
      [|apply lookup_ge_None in Hf; lia].
    destruct (PyStr.startswith (PyStr.strip f) "0x") eqn:Hid; simpl;
      [|naive_solver].
    destruct (parse_bytes parts) as [vals|] eqn:Hp.
    + split; [done|].
      intros [?|[?|[?|[(f' & ? & ?)|(i & f' & Hi & Hf' & Ht & Hn)]]]];
        try done; try lia; try congruence.
      assert (parse_bytes parts = None) as E; [|congruence].
      apply parse_bytes_None. exists i. split; [done|].
      apply parse_byte_None. eauto.
    + split; [|done]. intros _. do 4 right.
      apply parse_bytes_None in Hp as (i & Hi & (f' & ? & ? & ?)%parse_byte_None).
      eauto 10.
  - intros can_id byte_values.
    destruct (_ || _); [done|]. destruct (_ <? _)%nat; [done|].
    destruct (parts !! 2%nat); [|done]. destruct (negb _); [done|].
    destruct (parse_bytes parts) as [vals|] eqn:Hp; [|done].
    intros [= <- <-]. split.
    + unfold parse_bytes in Hp. apply length_mapM in Hp. by rewrite <- Hp.
    + intros i Hi. destruct (parse_bytes_lookup _ _ _ Hp Hi) as (v & Hv & Hb).
      exists v. split; [done|]. pose proof Hb as Hb'.
      apply parse_byte_spec in Hb. split; [|done].
      destruct (parts !! (4 + i)%nat) as [f|]; [|lia].
      destruct (PyStr.startswith (PyStr.strip f) "0x") eqn:Ht; [|lia].
      by eapply int16_tagged_nonneg.
Qed.

(** * The store *)

Lemma dd_get_length {A} (dflt : list A) d k :
  length dflt = 8%nat -> rows_ok d -> length (dd_get dflt d k) = 8%nat.
Proof.
  intros Hd Hok. unfold dd_get. destruct (d !! k) eqn:E; simpl; eauto.
Qed.

Lemma rows_ok_insert {A} (d : gmap string (list A)) k row :
  rows_ok d -> length row = 8%nat -> rows_ok (<[k:=row]> d).
Proof.
  intros Hok Hrow k' row'. destruct (decide (k = k')) as [->|].
  - rewrite lookup_insert_eq. congruence.
  - rewrite lookup_insert_ne by done. apply Hok.
Qed.

Lemma dd_get_insert_eq {A} (dflt : list A) d k row :
  dd_get dflt (<[k:=row]> d) k = row.
Proof. unfold dd_get. by rewrite lookup_insert_eq. Qed.

Lemma dd_get_insert_ne {A} (dflt : list A) d k k' row :
  k <> k' -> dd_get dflt (<[k:=row]> d) k' = dd_get dflt d k'.
Proof. intros. unfold dd_get. by rewrite lookup_insert_ne. Qed.

(** The loop never raises on rows of 8 entries, keeps their lengths, writes
    the new values, and stamps exactly the entries whose value differs. *)
Lemma record_bytes_spec byte_values : forall i now vals times,
  length vals = 8%nat -> length times = 8%nat ->
  (i + length byte_values <= 8)%nat ->
  exists vals' times',
    record_bytes i byte_values now vals times = (vals', times', Done)
    /\ length vals' = 8%nat /\ length times' = 8%nat
    /\ (forall j, (j < i)%nat \/ (i + length byte_values <= j)%nat ->
          vals' !! j = vals !! j /\ times' !! j = times !! j)
    /\ (forall k new old,
          byte_values !! k = Some new -> vals !! (i + k)%nat = Some old ->
          vals' !! (i + k)%nat = Some new
          /\ times' !! (i + k)%nat =
               if decide (old = new) then times !! (i + k)%nat else Some now).
Proof.
  induction byte_values as [|new_value rest IH]; intros i now vals times Hv Ht Hi.
  - exists vals, times. simpl. repeat split; done.
  - simpl in Hi. cbn [record_bytes].
    destruct (vals !! i) as [old|] eqn:Hold;
      [|apply lookup_ge_None in Hold; lia].
    assert ((i <? length times)%nat = true) as -> by (apply Nat.ltb_lt; lia).
    set (times1 := if old =? new_value then times else <[i:=now]> times).
    assert (length times1 = 8%nat) as Ht1.
    { unfold times1. destruct (old =? new_value); by rewrite ?length_insert. }
    destruct (IH (S i) now (<[i:=new_value]> vals) times1) as
      (vals' & times' & Hrec & Hlv & Hlt & Hout & Hin);
      [by rewrite length_insert|done|lia|].
    exists vals', times'. split.
    { unfold times1 in Hrec. destruct (old =? new_value); exact Hrec. }
    split; [done|]. split; [done|]. split.
    + intros j Hj. simpl in Hj. destruct (Hout j) as [-> ->]; [lia|].
      rewrite list_lookup_insert_ne by lia. split; [done|].
      unfold times1. destruct (old =? new_value); [done|].
      by rewrite list_lookup_insert_ne by lia.
    + intros [|k] new old' Hk Hold'.
      * rewrite Nat.add_0_r in *. simpl in Hk. injection Hk as <-.
        rewrite Hold in Hold'. injection Hold' as <-.
        destruct (Hout i) as [-> ->]; [lia|].
        rewrite list_lookup_insert_eq by lia. split; [done|].
        unfold times1. destruct (Z.eqb_spec old new_value); case_decide; try done.
        by rewrite list_lookup_insert_eq by lia.
      * simpl in Hk. replace (i + S k)%nat with (S i + k)%nat in * by lia.
        destruct (Hin k new old') as [-> ->]; [done| |].
        { by rewrite list_lookup_insert_ne by lia. }
        split; [done|]. case_decide; [|done].
        unfold times1. destruct (old =? new_value); [done|].
        by rewrite list_lookup_insert_ne by lia.
Qed.

Lemma values_row_length st pid : wf st -> length (values_row st pid) = 8%nat.
Proof. intros (Hv & _). by apply dd_get_length. Qed.

Lemma times_row_length st pid : wf st -> length (times_row st pid) = 8%nat.
Proof. intros (_ & Ht & _). by apply dd_get_length. Qed.

Lemma value_at_is_Some st c : wf st -> (c.2 < 8)%nat -> is_Some (value_at st c).
Proof.
  intros Hwf Hc. apply lookup_lt_is_Some. unfold value_at.
  by rewrite values_row_length.
Qed.

(** The store after a frame: on well-formed states the loop ends normally,
    the slots of the frame's identifier hold the frame, a slot is stamped
    when its value differs, and the other identifiers keep their rows. *)
Lemma store_frame_spec st can_id byte_values now :
  wf st -> length byte_values = 8%nat ->
  exists pids vals times,
    store_frame st can_id byte_values now = (set_store st pids vals times, Done)
    /\ wf (set_store st pids vals times)
    /\ (forall i new old,
          byte_values !! i = Some new -> value_at st (can_id, i) = Some old ->
          value_at (set_store st pids vals times) (can_id, i) = Some new
          /\ changed_at (set_store st pids vals times) (can_id, i) =
               if decide (old = new) then changed_at st (can_id, i)
               else Some now)
    /\ (forall c : Cell, c.1 <> can_id ->
          value_at (set_store st pids vals times) c = value_at st c
          /\ changed_at (set_store st pids vals times) c = changed_at st c).
Proof.
  intros Hwf Hlen. unfold store_frame.
  destruct (record_bytes_spec byte_values 0 now (values_row st can_id)
              (times_row st can_id))
    as (vals' & times' & -> & Hlv & Hlt & _ & Hin);
    [by apply values_row_length|by apply times_row_length|lia|].
  eexists _, _, _. split; [reflexivity|].
  destruct Hwf as (Hv & Ht & Hs). split; [|split].
  - split; [|split]; simpl; [by apply rows_ok_insert..|done].
  - intros i new old Hnew Hold.
    unfold value_at, changed_at, values_row, times_row.
    simpl. rewrite !dd_get_insert_eq. apply (Hin i new old Hnew Hold).
  - intros [pid i] Hne. unfold value_at, changed_at, values_row, times_row.
    simpl in *. by rewrite !dd_get_insert_ne.
Qed.

(** On a well-formed state the log block raises nothing, and it writes
    [last_logged_combined] only. *)
Lemma log_selection_spec st can_id :
  wf st ->
  exists last out,
    log_selection st can_id = (set_last_logged_combined st last, out, true).
Proof.
  intros Hwf. unfold log_selection.
  assert (st = set_last_logged_combined st (last_logged_combined st)) as Hst
    by by destruct st.
  destruct (selected_cells st) as [|c1 [|c2 [|c3 l]]] eqn:Hsel;
    try by (eexists _, _; rewrite Hst at 1).
  case_decide; [|by (eexists _, _; rewrite Hst at 1)].
  pose proof Hwf as (Hv & Ht & Hs). rewrite Hsel in Hs.
  apply Forall_cons in Hs as [H1 [H2 _]%Forall_cons].
  destruct (value_at_is_Some st c1 Hwf H1) as [b0 ->].
  destruct (value_at_is_Some st c2 Hwf H2) as [b1 ->].
  case_decide; eexists _, _; [by rewrite Hst at 1|done].
Qed.

Lemma wf_init t0 : wf (init t0).
Proof.
  split; [|split]; simpl; [intros k row; by rewrite lookup_empty..|constructor].
Qed.

Lemma parse_can_message_length line can_id byte_values :
  parse_can_message line = Some (can_id, byte_values) ->
  length byte_values = 8%nat.
Proof.
  unfold parse_can_message. repeat case_match; try done.
  intros [= <- <-]. unfold parse_bytes in *.
  match goal with H : mapM _ _ = Some _ |- _ => apply length_mapM in H end.
  done.
Qed.

(** What a frame does to the whole state on a well-formed state. *)
Lemma record_frame_spec st can_id byte_values now :
  wf st -> length byte_values = 8%nat ->
  exists pids vals times last out,
    let st1 := set_store st pids vals times in
    store_frame st can_id byte_values now = (st1, Done)
    /\ wf st1
    /\ log_selection st1 can_id = (set_last_logged_combined st1 last, out, true)
    /\ record_frame st can_id byte_values now =
         (set_total_messages (set_last_logged_combined st1 last)
            (total_messages st + 1), out).
Proof.
  intros Hwf Hlen.
  destruct (store_frame_spec st can_id byte_values now Hwf Hlen)
    as (pids & vals & times & Hstore & Hwf1 & _).
  destruct (log_selection_spec _ can_id Hwf1) as (last & out & Hlog).
  exists pids, vals, times, last, out. cbv zeta.
  split; [done|]. split; [done|]. split; [done|].
  unfold record_frame. by rewrite Hstore, Hlog.
Qed.

(** A slot of the frame's identifier after one reader step. *)
Lemma read_serial_step_slot st raw now can_id byte_values i old new :
  wf st ->
  parse_can_message (PyStr.strip raw) = Some (can_id, byte_values) ->
  value_at st (can_id, i) = Some old ->
  byte_values !! i = Some new ->
  value_at (read_serial_step st raw now).1 (can_id, i) = Some new
  /\ changed_at (read_serial_step st raw now).1 (can_id, i) =
       if decide (old = new) then changed_at st (can_id, i) else Some now.
Proof.
  intros Hwf Hparse Hold Hnew.
  pose proof (parse_can_message_length _ _ _ Hparse) as Hlen.
  destruct (store_frame_spec st can_id byte_values now Hwf Hlen)
    as (pids & vals & times & Hstore & Hwf1 & Hin & _).
  destruct (log_selection_spec _ can_id Hwf1) as (last & out & Hlog).
  destruct (Hin i new old Hnew Hold) as [<- <-].
  unfold read_serial_step, record_frame. by rewrite Hparse, Hstore, Hlog.
Qed.

(** C1: for a parsed frame and each offset below 8, the slot takes the new
    value; its [changed_at] becomes the current time when the new value
    differs from the stored one, and is left as it was, like the value, when
    they are equal. *)
Theorem changed_at_set_iff_value_differs st raw now can_id byte_values :
  wf st ->
  parse_can_message (PyStr.strip raw) = Some (can_id, byte_values) ->
  let st' := (read_serial_step st raw now).1 in
  forall i, (i < 8)%nat ->
    exists old new,
      value_at st (can_id, i) = Some old
      /\ byte_values !! i = Some new
      /\ value_at st' (can_id, i) = Some new
      /\ (old <> new -> changed_at st' (can_id, i) = Some now)
      /\ (old = new ->
            changed_at st' (can_id, i) = changed_at st (can_id, i)
            /\ value_at st' (can_id, i) = value_at st (can_id, i)).
Proof.
  intros Hwf Hparse st' i Hi.
  pose proof (parse_can_message_length _ _ _ Hparse) as Hlen.
  destruct (value_at_is_Some st (can_id, i) Hwf Hi) as [old Hold].
  destruct (lookup_lt_is_Some_2 byte_values i) as [new Hnew]; [lia|].
  exists old, new. split; [done|]. split; [done|].
  destruct (read_serial_step_slot st raw now _ _ i old new
              Hwf Hparse Hold Hnew) as [Hv Hc].
  fold st' in Hv, Hc. rewrite Hv, Hc.
  split; [done|]. split; intros; case_decide; try done. by subst.
Qed.

Lemma changed_at_set_iff_value_differs_witness :
  let st' :=
    (read_serial_step (init 0)
       "1,2,0x3C4,8,0x00,0x00,0x00,0x00,0x00,0x00,0x41,0x42" 10).1 in
  (changed_at st' ("0x3C4", 6%nat) = Some 10%Q
   /\ value_at st' ("0x3C4", 6%nat) = Some 65)
  /\ (changed_at st' ("0x3C4", 0%nat) = Some 0%Q
      /\ value_at st' ("0x3C4", 0%nat) = Some 0).
Proof.
  pose proof (changed_at_set_iff_value_differs (init 0)
    "1,2,0x3C4,8,0x00,0x00,0x00,0x00,0x00,0x00,0x41,0x42" 10
    "0x3C4" [0; 0; 0; 0; 0; 0; 65; 66] (wf_init 0) eq_refl) as H.
  cbv zeta in *. split.
  - destruct (H 6%nat ltac:(lia)) as (old & new & Hold & Hnew & Hv & Hne & _).
    injection Hold as <-. injection Hnew as <-. split; [by apply Hne|done].
  - destruct (H 0%nat ltac:(lia)) as (old & new & Hold & Hnew & Hv & _ & Heq).
    injection Hold as <-. injection Hnew as <-.
    destruct (Heq eq_refl) as [-> _]. done.
Defined.

(** * The selection *)

Lemma py_remove_sublist c l : sublist (py_remove c l) l.
Proof.
  induction l as [|x l IH]; simpl; [done|].
  case_decide; [by apply sublist_cons|by apply sublist_skip].
Qed.

Lemma py_remove_length c l : (length (py_remove c l) <= length l)%nat.
Proof. apply sublist_length, py_remove_sublist. Qed.

Lemma py_remove_Forall (P : Cell -> Prop) c l :
  Forall P l -> Forall P (py_remove c l).
Proof.
  induction 1 as [|x l Hx Hl IH]; simpl; [constructor|].
  case_decide; [done|by constructor].
Qed.

Lemma get_cell_at_position_col st x y c :
  get_cell_at_position st x y = Some c -> (c.2 < 8)%nat.
Proof.
  unfold get_cell_at_position.
  destruct ((x <? START_X) || (y <? START_Y)); [done|].
  destruct (y >=? START_Y + max_visible_rows * CELL_HEIGHT); [done|].
  destruct (((x - START_X) / CELL_WIDTH <? 0)
            || ((x - START_X) / CELL_WIDTH >=? 8)) eqn:Hcol; [done|].
  repeat case_match; try done. intros [= <-]. simpl.
  apply orb_false_elim in Hcol as [H1%Z.ltb_ge H2].
  destruct (Z.geb_spec ((x - START_X) / CELL_WIDTH) 8); [done|]. lia.
Qed.

Lemma wf_set_selected_cells st sel :
  wf st -> Forall (fun c : Cell => (c.2 < 8)%nat) sel ->
  wf (set_selected_cells st sel).
Proof. intros (Hv & Ht & _) Hs. by split; [|split]. Qed.

(** A click keeps the invariant and raises nothing. *)
Lemma select_cell_invariant st (cell : Cell) :
  invariant st -> (cell.2 < 8)%nat ->
  exists sel out,
    select_cell st cell = (set_selected_cells st sel, out, Continue)
    /\ invariant (set_selected_cells st sel)
    /\ Forall (fun o => is_formula_report o = false) out.
Proof.
  intros (Hwf & [Hnd Hlen] & Hcal) Hcol. unfold select_cell.
  pose proof Hwf as (Hv & Ht & Hs).
  case_decide as Hin.
  { eexists _, _. split; [done|]. split; [|by repeat constructor].
    split; [|split; [split|done]]; simpl.
    - by apply wf_set_selected_cells, py_remove_Forall.
    - eapply sublist_NoDup; [done|apply py_remove_sublist].
    - pose proof (py_remove_length cell (selected_cells st)). lia. }
  destruct (length (selected_cells st) <? 2)%nat eqn:Hlt.
  - apply Nat.ltb_lt in Hlt.
    assert (wf (set_selected_cells st (selected_cells st ++ [cell]))) as Hwf1.
    { apply wf_set_selected_cells; [done|]. apply Forall_app.
      split; [done|]. by apply Forall_singleton. }
    destruct (value_at_is_Some _ cell Hwf1 Hcol) as [v Hval]. cbv zeta.
    eexists _, _. rewrite Hval. split; [done|]. split.
    + split; [done|]. split; [|done]. split; simpl.
      * apply NoDup_app. split; [done|]. split; [|apply NoDup_singleton].
        intros x Hx ->%list_elem_of_singleton. done.
      * rewrite length_app. simpl. lia.
    + constructor; [done|]. case_match; by repeat constructor.
  - apply Nat.ltb_ge in Hlt.
    destruct (selected_cells st) as [|old_cell rest] eqn:Hsel;
      [simpl in Hlt; lia|].
    assert (wf (set_selected_cells st (rest ++ [cell]))) as Hwf1.
    { apply wf_set_selected_cells; [done|]. apply Forall_app.
      apply Forall_cons in Hs as [_ Hs]. split; [done|].
      by apply Forall_singleton. }
    destruct (value_at_is_Some _ cell Hwf1 Hcol) as [v Hval]. cbv zeta.
    eexists _, _. rewrite Hval. split; [done|]. split; [|by repeat constructor].
    split; [done|]. split; [|done]. split; simpl.
    + apply NoDup_cons in Hnd as [_ Hnd]. apply NoDup_app. split; [done|].
      split; [|apply NoDup_singleton].
      intros x Hx ->%list_elem_of_singleton. apply Hin. by right.
    + rewrite length_app. simpl in *. lia.
Qed.


(** * Invariants of the steps *)

Lemma invariant_ext st st' :
  current_values st' = current_values st ->
  change_times st' = change_times st ->
  selected_cells st' = selected_cells st ->
  calibration_data st' = calibration_data st ->
  invariant st -> invariant st'.
Proof.
  unfold invariant, wf, selection_ok. intros -> -> -> ->. done.
Qed.

Lemma invariant_init t0 : invariant (init t0).
Proof.
  split; [apply wf_init|]. split; [|done].
  split; simpl; [constructor|lia].
Qed.

Lemma quiet_handle_temperature_input st : quiet (handle_temperature_input st).
Proof.
  unfold handle_temperature_input, quiet.
  repeat case_match; by repeat constructor.
Qed.

Lemma handle_event_invariant st event :
  invariant st ->
  exists st' out flow,
    handle_event st event = (st', out, flow)
    /\ invariant st'
    /\ total_messages st' = total_messages st
    /\ quiet out /\ no_crash flow.
Proof.
  intros Hinv.
  assert (forall st' out flow,
            invariant st' -> total_messages st' = total_messages st ->
            quiet out -> no_crash flow ->
            exists st'' out' flow',
              (st', out, flow) = (st'', out', flow')
              /\ invariant st''
              /\ total_messages st'' = total_messages st
              /\ quiet out' /\ no_crash flow') as Hdone
    by (intros; eauto 10).
  assert (forall st', current_values st' = current_values st ->
            change_times st' = change_times st ->
            selected_cells st' = selected_cells st ->
            calibration_data st' = calibration_data st ->
            invariant st') as Hext
    by (intros; by eapply invariant_ext).
  destruct event as [|key|y|button mouse_x mouse_y|]; simpl.
  - by apply Hdone; [| |constructor|].
  - destruct key; simpl;
      try (apply Hdone; [by apply Hext| done |by repeat constructor|done]).
    + (* K_t *)
      unfold toggle_calibration. simpl.
      destruct Hinv as (Hwf & Hsel & Hcal). rewrite Hcal.
      destruct (negb (calibration_mode st));
        (apply Hdone; [by apply Hext| done |by repeat constructor|done]).
    + (* K_RETURN *)
      destruct (_ && _);
        (apply Hdone; [done|done| |done]);
        [apply quiet_handle_temperature_input|constructor].
    + (* K_c *)
      apply Hdone; [|done|by repeat constructor|done].
      destruct Hinv as ((Hv & Ht & _) & _ & Hcal).
      split; [by split; [|split]|]. split; [|done].
      split; simpl; [constructor|lia].
  - destruct (y >? 0);
      (apply Hdone; [by apply Hext| done |by repeat constructor|done]).
  - destruct (button =? 1); [|by apply Hdone; [| |constructor|]].
    destruct (get_cell_at_position st mouse_x mouse_y) as [cell|] eqn:Hcell;
      [|by apply Hdone; [| |constructor|]].
    apply get_cell_at_position_col in Hcell.
    destruct (select_cell_invariant st cell Hinv Hcell)
      as (sel & out & -> & Hinv' & Hq).
    by apply Hdone.
  - by apply Hdone; [| |constructor|].
Qed.

Lemma quiet_app out1 out2 : quiet out1 -> quiet out2 -> quiet (out1 ++ out2).
Proof. intros. by apply Forall_app. Qed.

Lemma handle_events_invariant events : forall st,
  invariant st ->
  exists st' out flow,
    handle_events st events = (st', out, flow)
    /\ invariant st'
    /\ total_messages st' = total_messages st
    /\ quiet out /\ no_crash flow.
Proof.
  induction events as [|event rest IH]; intros st Hinv; simpl.
  - eexists _, _, _. split; [done|]. split; [done|]. split; [done|].
    split; [constructor|done].
  - destruct (handle_event_invariant st event Hinv)
      as (st1 & out1 & flow & -> & Hinv1 & Htot1 & Hq1 & Hc1).
    destruct flow; [|by eauto 10..].
    destruct (IH st1 Hinv1)
      as (st2 & out2 & flow2 & -> & Hinv2 & Htot2 & Hq2 & Hc2).
    eexists _, _, _. split; [done|]. split; [done|].
    split; [congruence|]. split; [by apply quiet_app|done].
Qed.

Lemma draw_grid_invariant st now :
  invariant st ->
  invariant (draw_grid st now)
  /\ total_messages (draw_grid st now) = total_messages st.
Proof.
  intros Hinv. unfold draw_grid. destruct (Qle_bool _ _); [|done].
  split; [by eapply invariant_ext|done].
Qed.

Lemma is_frame_parse raw :
  is_frame raw = true <->
  exists can_id byte_values,
    parse_can_message (PyStr.strip raw) = Some (can_id, byte_values).
Proof.
  unfold is_frame. destruct (parse_can_message _) as [[can_id bv]|].
  - split; [eauto|done].
  - split; [done|]. by intros (? & ? & ?).
Qed.

Lemma read_serial_step_invariant st raw now :
  invariant st ->
  exists st' out,
    read_serial_step st raw now = (st', out)
    /\ invariant st'
    /\ total_messages st' =
         total_messages st + (if is_frame raw then 1 else 0)
    /\ quiet out.
Proof.
  intros (Hwf & Hsel & Hcal). unfold read_serial_step, is_frame.
  destruct (parse_can_message _) as [[can_id bv]|] eqn:Hparse.
  - apply parse_can_message_length in Hparse.
    destruct (record_frame_spec st can_id bv now Hwf Hparse)
      as (pids & vals & times & last & out & _ & Hwf1 & Hlog & ->).
    eexists _, _. split; [done|]. split; [|split; [done|]].
    + destruct Hwf1 as (Hv & Ht & Hs). by split; [split; [|split]|split].
    + revert Hlog. unfold log_selection. unfold quiet.
      repeat case_match; intros [= <- <-]; repeat constructor; done.
  - eexists _, _. split; [done|]. split; [done|]. split; [lia|constructor].
Qed.

Lemma step_invariant st s :
  invariant st ->
  exists st' out flow,
    step st s = (st', out, flow)
    /\ invariant st'
    /\ total_messages st' = total_messages st + frames_read [s]
    /\ quiet out /\ no_crash flow.
Proof.
  intros Hinv. destruct s as [raw now|events now]; simpl.
  - destruct (read_serial_step_invariant st raw now Hinv)
      as (st' & out & -> & Hinv' & Htot & Hq).
    eexists _, _, _. split; [done|]. split; [done|]. split; [lia|done].
  - destruct (handle_events_invariant events st Hinv)
      as (st' & out & flow & -> & Hinv' & Htot & Hq & Hc).
    destruct (draw_grid_invariant st' now Hinv') as [Hinv2 Htot2].
    destruct flow; eexists _, _, _; (split; [done|]);
      (split; [done|]); (split; [lia|done]).
Qed.

(** A run from a state that satisfies the invariant ends in one, has
    counted the frames of the executed steps, has printed no formula and
    ends without an exception. *)
Lemma run_invariant steps : forall st,
  invariant st ->
  exists st' out flow,
    run st steps = (st', out, flow)
    /\ invariant st'
    /\ total_messages st' = total_messages st + frames_read (executed st steps)
    /\ quiet out /\ no_crash flow.
Proof.
  induction steps as [|s rest IH]; intros st Hinv; simpl.
  - eexists _, _, _. split; [done|]. split; [done|]. split; [lia|].
    split; [constructor|done].
  - destruct (step_invariant st s Hinv)
      as (st1 & out1 & flow & Hstep & Hinv1 & Htot1 & Hq1 & Hc1).
    rewrite Hstep. simpl in Htot1.
    destruct flow.
    + destruct (IH st1 Hinv1)
        as (st2 & out2 & flow2 & -> & Hinv2 & Htot2 & Hq2 & Hc2).
      eexists _, _, _. split; [done|]. split; [done|].
      split; [|split; [by apply quiet_app|done]].
      rewrite Htot2, Htot1. destruct s; simpl; lia.
    + eexists _, _, _. split; [done|]. split; [done|]. split; [|done].
      rewrite Htot1. destruct s; simpl; lia.
    + eexists _, _, _. split; [done|]. split; [done|]. split; [|done].
      rewrite Htot1. destruct s; simpl; lia.
Qed.

(** * The combined value *)




(** * The selection *)


(** * The calibration list *)


(** * The message counter *)


Lemma wf_final t0 steps : wf (final t0 steps).
Proof.
  destruct (run_invariant steps (init t0) (invariant_init t0))
    as (st' & out & flow & Hrun & (Hwf & _) & _).
  unfold final. by rewrite Hrun.
Qed.

(** * The log of the selected pair *)

(** C9: with two cells selected, whatever a reader step prints comes from a
    frame of the first selected cell's identifier whose combined value is
    not the last one logged, and the prompt needs the calibration mode; a
    frame of any other identifier prints nothing and leaves the last logged
    value. *)
Theorem log_only_for_first_selected_identifier st raw now (c1 c2 : Cell) :
  wf st -> selected_cells st = [c1; c2] ->
  let st' := (read_serial_step st raw now).1 in
  let out := (read_serial_step st raw now).2 in
  (forall o, o ∈ out ->
     exists can_id byte_values b0 b1,
       parse_can_message (PyStr.strip raw) = Some (can_id, byte_values)
       /\ can_id = c1.1
       /\ value_at st' c1 = Some b0 /\ value_at st' c2 = Some b1
       /\ last_logged_combined st <> Some (combined_value b0 b1)
       /\ (o = LogLine b0 (byte_to_ascii_display b0)
                 b1 (byte_to_ascii_display b1) (combined_value b0 b1)
           \/ (o = CalibrationPrompt (combined_value b0 b1)
               /\ calibration_mode st = true)))
  /\ (forall can_id byte_values,
        parse_can_message (PyStr.strip raw) = Some (can_id, byte_values) ->
        can_id <> c1.1 ->
        out = [] /\ last_logged_combined st' = last_logged_combined st).
Proof.
  intros Hwf Hsel st' out. subst st' out. unfold read_serial_step.
  destruct (parse_can_message _) as [[can_id bv]|] eqn:Hparse;
    [|split; [by intros o ?%elem_of_nil|done]].
  pose proof (parse_can_message_length _ _ _ Hparse) as Hlen.
  destruct (record_frame_spec st can_id bv now Hwf Hlen)
    as (pids & vals & times & last & out & _ & Hwf1 & Hlog & ->).
  cbn [fst snd]. revert Hlog. unfold log_selection.
  cbn [selected_cells set_store]. rewrite Hsel.
  pose proof Hwf1 as (_ & _ & Hs). cbn [selected_cells set_store] in Hs.
  rewrite Hsel in Hs. apply Forall_cons in Hs as [H1 [H2 _]%Forall_cons].
  destruct (value_at_is_Some _ c1 Hwf1 H1) as [b0 Hb0].
  destruct (value_at_is_Some _ c2 Hwf1 H2) as [b1 Hb1].
  rewrite Hb0, Hb1.
  case_decide as Hid; [case_decide as Hlast|]; intros [= Hst <-].
  - split; [by intros o ?%elem_of_nil|]. intros ? ? [= -> _] Hne. done.
  - split; [|intros ? ? [= -> _] Hne; done].
    intros o Ho. exists can_id, bv, b0, b1.
    split; [done|]. split; [done|]. split; [exact Hb0|]. split; [exact Hb1|].
    split; [done|].
    apply elem_of_cons in Ho as [->|Ho]; [by left|].
    cbn [calibration_mode set_store] in Ho.
    destruct (calibration_mode st); [|by apply elem_of_nil in Ho].
    apply list_elem_of_singleton in Ho as ->. by right.
  - split; [by intros o ?%elem_of_nil|]. intros ? ? _ _. split; [done|].
    by rewrite <- Hst.
Qed.

Lemma log_only_for_first_selected_identifier_witness :
  (read_serial_step (final 0 demo_steps)
     "1,2,0xB,8,0,0,0,0,0,0,0,0x43" 4).2 = [].
Proof.
  pose proof (log_only_for_first_selected_identifier (final 0 demo_steps)
                "1,2,0xB,8,0,0,0,0,0,0,0,0x43" 4 ("0xA", 6%nat) ("0xB", 7%nat)
                (wf_final 0 demo_steps) eq_refl) as H.
  cbv zeta in H. destruct H as [_ H].
  apply (H "0xB" [0; 0; 0; 0; 0; 0; 0; 67] eq_refl). discriminate.
Defined.

(** * The decode engine *)

Lemma ord_ascii_of_byte b :
  0 <= b < 256 -> PyStr.ord (ascii_of_N (Z.to_N b)) = b.
Proof.
  intros Hb. unfold PyStr.ord. rewrite N_ascii_embedding; lia.
Qed.

(** The displayed character is a digit exactly for the bytes 48 to 57. *)
Lemma isdigit_display b :
  PyStr.isdigit (byte_to_ascii_display b) = true <-> 48 <= b <= 57.
Proof.
  unfold byte_to_ascii_display.
  destruct ((32 <=? b) && (b <=? 126)) eqn:Hp.
  - apply andb_prop in Hp as [H1%Z.leb_le H2%Z.leb_le].
    unfold PyStr.isdigit. rewrite ord_ascii_of_byte by lia.
    rewrite !orb_true_iff, andb_true_iff, !Z.leb_le, !Z.eqb_eq. lia.
  - split; [by vm_compute|]. intros Hb.
    apply andb_false_iff in Hp as [H%Z.leb_gt|H%Z.leb_gt]; lia.
Qed.

Lemma digit_cases b : 48 <= b <= 57 ->
  b = 48 \/ b = 49 \/ b = 50 \/ b = 51 \/ b = 52
  \/ b = 53 \/ b = 54 \/ b = 55 \/ b = 56 \/ b = 57.
Proof. lia. Qed.

(** [int] of the two displayed digits is the two-digit number. *)
Lemma int_two_digits b0 b1 :
  48 <= b0 <= 57 -> 48 <= b1 <= 57 ->
  PyStr.int_ 10
    (String (byte_to_ascii_display b0)
       (String (byte_to_ascii_display b1) EmptyString))
  = Some (10 * (b0 - 48) + (b1 - 48)).
Proof.
  intros H0%digit_cases H1%digit_cases.
  repeat (destruct H0 as [->|H0]); try subst b0;
    repeat (destruct H1 as [->|H1]); try subst b1; reflexivity.
Qed.

(** The digit-pair rule never raises. *)
Lemma hvac_candidates_ok b0 b1 :
  hvac_candidates (byte_to_ascii_display b0) (byte_to_ascii_display b1)
  = Ok (if PyStr.isdigit (byte_to_ascii_display b0)
           && PyStr.isdigit (byte_to_ascii_display b1)
        then [hvac_position (10 * (b0 - 48) + (b1 - 48))]
        else []).
Proof.
  unfold hvac_candidates.
  destruct (PyStr.isdigit (byte_to_ascii_display b0)) eqn:H0; [|done].
  destruct (PyStr.isdigit (byte_to_ascii_display b1)) eqn:H1; [|done].
  apply isdigit_display in H0, H1. simpl. by rewrite int_two_digits.
Qed.

Lemma celsius_formula f : (celsius f == (inject_Z f - 32) * 5 / 9)%Q.
Proof.
  unfold celsius, Z.sub, Qminus.
  rewrite inject_Z_mult, inject_Z_plus, inject_Z_opp. reflexivity.
Qed.

(** C6: for two bytes whose displayed characters are digits, the candidate
    after the ASCII one reads the two digits as a position: 60 is LOW at 50
    F and 10 C, 90 is HIGH at 95 F and 35 C, a position from 65 to 84 gives
    the Fahrenheit value position - 5 with Celsius (F - 32) * 5 / 9, and any
    other position is reported outside the range with both temperatures 0. *)
Theorem hvac_position_lookup b0 b1 :
  PyStr.isdigit (byte_to_ascii_display b0) = true ->
  PyStr.isdigit (byte_to_ascii_display b1) = true ->
  let position := 10 * (b0 - 48) + (b1 - 48) in
  exists first cand rest,
    calculate_temperature_values b0 (Some b1) = Ok (first :: cand :: rest)
    /\ is_primary cand = true
    /\ (position = 60 ->
          description cand = HvacLow 60
          /\ temp_f cand = 50 /\ temp_c cand = 10%Q)
    /\ (position = 90 ->
          description cand = HvacHigh 90
          /\ temp_f cand = 95 /\ temp_c cand = 35%Q)
    /\ (65 <= position <= 84 ->
          description cand = HvacTemp (position - 5) position
          /\ temp_f cand = position - 5
          /\ (temp_c cand == (inject_Z (position - 5) - 32) * 5 / 9)%Q)
    /\ (position <> 60 -> position <> 90 -> ~ 65 <= position <= 84 ->
          description cand = PositionOutside position
          /\ temp_f cand = 0 /\ temp_c cand = 0%Q).
Proof.
  intros H0 H1 position. unfold calculate_temperature_values.
  rewrite hvac_candidates_ok, H0, H1. cbn [andb].
  eexists _, (hvac_position position), _. split; [reflexivity|].
  unfold hvac_position.
  destruct (Z.eqb_spec position 60) as [->|H60].
  { repeat split; try done; lia. }
  destruct (Z.eqb_spec position 90) as [->|H90].
  { repeat split; try done; lia. }
  destruct ((65 <=? position) && (position <=? 84)) eqn:Hr.
  - apply andb_prop in Hr as [?%Z.leb_le ?%Z.leb_le]. cbn.
    repeat split; try done; try lia. apply celsius_formula.
  - apply andb_false_iff in Hr. cbn.
    repeat split; try done; intros; destruct Hr as [?%Z.leb_gt|?%Z.leb_gt]; lia.
Qed.

Lemma hvac_position_lookup_witness :
  exists first cand rest,
    calculate_temperature_values 54 (Some 48) = Ok (first :: cand :: rest)
    /\ description cand = HvacLow 60
    /\ temp_f cand = 50 /\ temp_c cand = 10%Q.
Proof.
  destruct (hvac_position_lookup 54 48 eq_refl eq_refl)
    as (first & cand & rest & Heq & _ & H60 & _).
  destruct (H60 eq_refl) as (Hd & Hf & Hc).
  exists first, cand, rest. by repeat split.
Defined.

(** C7: the last loop runs over the big-endian, the little-endian and the
    additive combination; only the additive one yields a candidate, and it
    does exactly when the sum is below 200 and sum - 40 lies in 32..120. *)
Theorem additive_candidate_iff_in_range v1 v2 :
  other_interpretations v1 v2
  = [("BE", Z.lor (Z.shiftl v1 8) v2);
     ("LE", Z.lor (Z.shiftl v2 8) v1);
     ("ADD", v1 + v2)]
  /\ exists results,
       calculate_temperature_values v1 (Some v2) = Ok results
       /\ (forall c desc test_val,
             c ∈ results -> description c = Minus40 desc test_val ->
             desc = "ADD" /\ test_val = v1 + v2
             /\ test_val < 200 /\ 32 <= test_val - 40 <= 120
             /\ temp_f c = test_val - 40
             /\ (temp_c c == (inject_Z (temp_f c) - 32) * 5 / 9)%Q
             /\ is_primary c = false)
       /\ (v1 + v2 < 200 -> 32 <= v1 + v2 - 40 <= 120 ->
             exists c, c ∈ results
               /\ description c = Minus40 "ADD" (v1 + v2)
               /\ temp_f c = v1 + v2 - 40).
Proof.
  split; [done|]. unfold calculate_temperature_values.
  rewrite hvac_candidates_ok. eexists. split; [reflexivity|].
  assert (flat_map other_candidate (other_interpretations v1 v2)
          = if (v1 + v2 <? 200)
               && ((32 <=? v1 + v2 - 40) && (v1 + v2 - 40 <=? 120))
            then [mkCandidate (Minus40 "ADD" (v1 + v2))
                    (celsius (v1 + v2 - 40)) (v1 + v2 - 40) false]
            else []) as ->.
  { cbn. destruct (v1 + v2 <? 200); [|done]. cbn.
    by destruct ((32 <=? v1 + v2 - 40) && (v1 + v2 - 40 <=? 120)). }
  split.
  - intros c desc test_val Hc Hdesc.
    apply elem_of_cons in Hc as [->|Hc]; [done|].
    apply elem_of_app in Hc as [Hc|Hc].
    { destruct (_ && _); [|by apply elem_of_nil in Hc].
      apply list_elem_of_singleton in Hc as ->. revert Hdesc.
      unfold hvac_position. by repeat case_match. }
    apply elem_of_app in Hc as [Hc|Hc].
    { revert Hc. unfold printable_summary.
      repeat case_match; intros Hc; try by apply elem_of_nil in Hc.
      all: apply list_elem_of_singleton in Hc as ->; done. }
    apply elem_of_app in Hc as [Hc|Hc].
    { revert Hc. unfold legacy_offset.
      case_match; intros Hc; [|by apply elem_of_nil in Hc].
      apply list_elem_of_singleton in Hc as ->; done. }
    destruct (_ && _) eqn:Hr; [|by apply elem_of_nil in Hc].
    apply list_elem_of_singleton in Hc as ->. injection Hdesc as <- <-.
    apply andb_prop in Hr as [?%Z.ltb_lt [?%Z.leb_le ?%Z.leb_le]%andb_prop].
    cbn. repeat split; try done. apply celsius_formula.
  - intros Hlt [Hlo Hhi].
    assert ((v1 + v2 <? 200)
            && ((32 <=? v1 + v2 - 40) && (v1 + v2 - 40 <=? 120)) = true) as ->.
    { rewrite !andb_true_iff, Z.ltb_lt, !Z.leb_le. lia. }
    exists (mkCandidate (Minus40 "ADD" (v1 + v2))
              (celsius (v1 + v2 - 40)) (v1 + v2 - 40) false).
    split; [|done].
    apply elem_of_cons. right. rewrite !elem_of_app. do 3 right.
    by apply list_elem_of_singleton.
Qed.

(** * The calibration fit *)

Lemma fold_left_add_const (l : list Z) x : forall acc,
  Forall (fun y => y = x) l ->
  fold_left Z.add l acc = acc + Z.of_nat (length l) * x.
Proof.
  induction l as [|y l IH]; intros acc Hl; simpl; [lia|].
  apply Forall_cons in Hl as [-> Hl]. rewrite IH by done. lia.
Qed.

(** With every x equal, the denominator of the slope is the integer 0. *)
Lemma slope_denominator_zero_variance x_vals x :
  Forall (fun y => y = x) x_vals -> slope_denominator x_vals = 0.
Proof.
  intros Hx. unfold slope_denominator, sum_Z.
  rewrite (fold_left_add_const x_vals x) by done.
  rewrite (fold_left_add_const (map _ x_vals) (x * x)).
  - rewrite length_map. lia.
  - apply Forall_map. eapply Forall_impl; [exact Hx|]. by intros y ->.
Qed.

(** Fewer than two points: the function returns without a formula.  Two or
    more points with one and the same combined value: the division raises
    [ZeroDivisionError]. *)
Lemma calculate_temperature_formula_degenerate (data : list CalPoint) x :
  ((length data < 2)%nat -> calculate_temperature_formula data = Ok [])
  /\ ((2 <= length data)%nat ->
      Forall (fun point : CalPoint => point.1.2 = x) data ->
      calculate_temperature_formula data = Raise ZeroDivisionError).
Proof.
  unfold calculate_temperature_formula. split.
  - intros H%Nat.ltb_lt. by rewrite H.
  - intros H%Nat.ltb_ge Hx. rewrite H.
    pose proof (slope_denominator_zero_variance
                  (map (fun point : CalPoint => point.1.2) data) x) as Hden.
    unfold slope_denominator in Hden. rewrite length_map in Hden.
    rewrite Hden; [done|]. by apply Forall_map.
Qed.

(** C2: two points with the same combined value make the fit raise
    [ZeroDivisionError]; a single point makes it return without a formula. *)
Theorem fit_on_identical_combined_values_raises :
  calculate_temperature_formula [(50%Q, 100, 1%Q); (95%Q, 100, 2%Q)]
  = Raise ZeroDivisionError
  /\ calculate_temperature_formula [(50%Q, 100, 1%Q)] = Ok [].
Proof.
  split.
  - apply (calculate_temperature_formula_degenerate _ 100); [simpl; lia|].
    by repeat constructor.
  - apply (calculate_temperature_formula_degenerate _ 100). simpl. lia.
Qed.

(** * The parser accepts values above 255 *)

(** C3 as stated fails: the data field [0x1FF] is accepted, with the value
    511. *)
Lemma parse_accepts_value_above_byte_range :
  ~ (forall line can_id byte_values,
       parse_can_message line = Some (can_id, byte_values) ->
       Forall (fun v => 0 <= v <= 255) byte_values).
Proof.
  intros H.
  specialize (H "t,r,0x3C4,8,0x1FF,0x00,0x00,0x00" "0x3C4"
                [511; 0; 0; 0; 0; 0; 0; 0] eq_refl).
  apply Forall_cons in H as [? _]. lia.
Qed.

(** * Properties kept by every step *)

Section Preservation.

Variable P : CANVisualGrid -> Prop.

Hypothesis P_reader :
  forall st raw now, P st -> P (read_serial_step st raw now).1.
Hypothesis P_event :
  forall st event, P st -> P (handle_event st event).1.1.
Hypothesis P_draw :
  forall st now, P st -> P (draw_grid st now).

Lemma handle_events_preserves events :
  forall st, P st -> P (handle_events st events).1.1.
Proof using P_event.
  induction events as [|event rest IH]; intros st HP; simpl; [done|].
  pose proof (P_event st event HP) as H1.
  destruct (handle_event st event) as [[st1 out1] flow]. simpl in H1.
  destruct flow; [|done..].
  specialize (IH st1 H1).
  by destruct (handle_events st1 rest) as [[st2 out2] flow2].
Qed.

Lemma step_preserves st s : P st -> P (step st s).1.1.
Proof using P_reader P_event P_draw.
  intros HP. destruct s as [raw now|events now]; simpl.
  - pose proof (P_reader st raw now HP) as H1.
    by destruct (read_serial_step st raw now).
  - pose proof (handle_events_preserves events st HP) as H1.
    destruct (handle_events st events) as [[st1 out1] flow]. simpl in H1.
    destruct flow; [by apply P_draw|done..].
Qed.

Lemma run_preserves steps : forall st, P st -> P (run st steps).1.1.
Proof using P_reader P_event P_draw.
  induction steps as [|s rest IH]; intros st HP; simpl; [done|].
  pose proof (step_preserves st s HP) as H1.
  destruct (step st s) as [[st1 out1] flow]. simpl in H1.
  destruct flow; [|done..].
  specialize (IH st1 H1). by destruct (run st1 rest) as [[st2 out2] flow2].
Qed.

End Preservation.

(** The event handler and the drawing never write the identifier list. *)
Lemma handle_event_pid_list st event :
  pid_list (handle_event st event).1.1 = pid_list st.
Proof.
  destruct event as [|key|y|button mouse_x mouse_y|]; simpl; try done.
  - destruct key; simpl; try done.
    + unfold toggle_calibration. by repeat case_match.
    + by case_match.
  - by case_match.
  - repeat case_match; try done. simplify_eq.
    unfold select_cell in *. by repeat case_match; simplify_eq.
Qed.

Lemma draw_grid_pid_list st now : pid_list (draw_grid st now) = pid_list st.
Proof. unfold draw_grid. by case_match. Qed.

Lemma log_selection_pid_list st can_id :
  pid_list (log_selection st can_id).1.1 = pid_list st.
Proof. unfold log_selection. by repeat case_match. Qed.

(** A frame puts its identifier at the end of the list when it is new, and
    leaves the list as it is otherwise. *)
Lemma read_serial_step_pid_list st raw now :
  pid_list (read_serial_step st raw now).1 =
  match parse_can_message (PyStr.strip raw) with
  | Some (can_id, _) =>
      if decide (can_id ∈ pid_list st) then pid_list st
      else (pid_list st ++ [can_id])%list
  | None => pid_list st
  end.
Proof.
  unfold read_serial_step.
  destruct (parse_can_message _) as [[can_id bv]|]; [|done].
  unfold record_frame, store_frame.
  destruct (record_bytes _ _ _ _ _) as [[vals times] outcome].
  destruct outcome; [|done].
  match goal with |- context [log_selection ?s ?c] =>
    pose proof (log_selection_pid_list s c) as Hlog;
    destruct (log_selection s c) as [[st2 out] ok] end.
  simpl in Hlog. by destruct ok.
Qed.


(** A reader step keeps a well-formed state well-formed. *)
Lemma read_serial_step_wf st raw now :
  wf st -> wf (read_serial_step st raw now).1.
Proof.
  intros Hwf. unfold read_serial_step.
  destruct (parse_can_message _) as [[can_id bv]|] eqn:Hparse; [|done].
  apply parse_can_message_length in Hparse.
  destruct (record_frame_spec st can_id bv now Hwf Hparse)
    as (pids & vals & times & last & out & _ & Hwf1 & _ & ->).
  destruct Hwf1 as (Hv & Ht & Hs). by split; [|split].
Qed.

(** Reading the same frame again, at any later time, leaves every slot of
    its identifier as the first reading left it. *)
Theorem reingest_identical_frame_keeps_changed_at
    st raw t1 t2 can_id byte_values :
  wf st ->
  parse_can_message (PyStr.strip raw) = Some (can_id, byte_values) ->
  let st1 := (read_serial_step st raw t1).1 in
  let st2 := (read_serial_step st1 raw t2).1 in
  forall i, (i < 8)%nat ->
    changed_at st2 (can_id, i) = changed_at st1 (can_id, i)
    /\ value_at st2 (can_id, i) = value_at st1 (can_id, i).
Proof.
  intros Hwf Hparse st1 st2 i Hi.
  pose proof (parse_can_message_length _ _ _ Hparse) as Hlen.
  destruct (value_at_is_Some st (can_id, i) Hwf Hi) as [old Hold].
  destruct (lookup_lt_is_Some_2 byte_values i) as [new Hnew]; [lia|].
  destruct (read_serial_step_slot st raw t1 _ _ i old new Hwf Hparse Hold Hnew)
    as [Hv1 _]. fold st1 in Hv1.
  destruct (read_serial_step_slot st1 raw t2 _ _ i new new
              (read_serial_step_wf st raw t1 Hwf) Hparse Hv1 Hnew)
    as [Hv2 Hc2]. fold st2 in Hv2, Hc2.
  rewrite Hv2, Hv1, Hc2. by case_decide.
Qed.

Lemma reingest_identical_frame_keeps_changed_at_witness :
  let raw := "1,2,0x3C4,8,0x00,0x00,0x00,0x00,0x00,0x00,0x41,0x42" in
  changed_at
    (read_serial_step (read_serial_step (init 0) raw 10).1 raw 20).1
    ("0x3C4", 6%nat)
  = Some 10%Q.
Proof.
  cbv zeta.
  destruct (reingest_identical_frame_keeps_changed_at (init 0)
              "1,2,0x3C4,8,0x00,0x00,0x00,0x00,0x00,0x00,0x41,0x42" 10 20
              "0x3C4" [0; 0; 0; 0; 0; 0; 65; 66] (wf_init 0) eq_refl
              6%nat ltac:(lia)) as [-> _].
  reflexivity.
Defined.

(** * What a reader step leaves alone *)

(** The log block writes [last_logged_combined] only. *)
Lemma log_selection_frame st can_id :
  exists last,
    (log_selection st can_id).1.1 = set_last_logged_combined st last.
Proof.
  unfold log_selection.
  assert (st = set_last_logged_combined st (last_logged_combined st)) as Hst
    by by destruct st.
  repeat case_match; simpl; eauto.
Qed.

(** The state after a frame, whatever the loop's outcome: the store holds
    new rows for the frame's identifier, and the counter and the last logged
    value may have moved. *)
Lemma record_frame_shape st can_id byte_values now :
  exists pids vals times last total,
    (record_frame st can_id byte_values now).1 =
    set_total_messages
      (set_last_logged_combined
         (set_store st pids (<[can_id:=vals]> (current_values st))
            (<[can_id:=times]> (change_times st)))
         last)
      total.
Proof.
  unfold record_frame, store_frame.
  destruct (record_bytes _ _ _ _ _) as [[vals times] outcome].
  destruct outcome as [|e].
  - match goal with |- context [log_selection ?s ?c] =>
      destruct (log_selection_frame s c) as (last & Hlast);
      destruct (log_selection s c) as [[st2 out] ok] end.
    simpl in Hlast. subst st2.
    destruct ok; simpl.
    + by eexists _, _, _, _, _.
    + by eexists _, vals, times, last, (total_messages st).
  - by eexists _, vals, times, (last_logged_combined st), (total_messages st).
Qed.

(** A reader step writes the store, the counter and the last logged value
    only, and in the store only the two rows of the frame's identifier; a
    line that does not parse changes nothing. *)
Theorem read_serial_step_writes_one_identifier st raw now :
  let st' := (read_serial_step st raw now).1 in
  selected_cells st' = selected_cells st
  /\ display_mode st' = display_mode st
  /\ calibration_mode st' = calibration_mode st
  /\ calibration_data st' = calibration_data st
  /\ scroll_offset st' = scroll_offset st
  /\ (forall can_id byte_values (c : Cell),
        parse_can_message (PyStr.strip raw) = Some (can_id, byte_values) ->
        c.1 <> can_id ->
        value_at st' c = value_at st c /\ changed_at st' c = changed_at st c)
  /\ (parse_can_message (PyStr.strip raw) = None -> st' = st).
Proof.
  intros st'. subst st'. unfold read_serial_step.
  destruct (parse_can_message _) as [[can_id bv]|]; [|by repeat split].
  destruct (record_frame_shape st can_id bv now)
    as (pids & vals & times & last & total & ->).
  do 5 (split; [done|]). split; [|done].
  intros ? ? [pid i] [= <- <-] Hne. simpl in Hne.
  unfold value_at, changed_at, values_row, times_row. simpl.
  by rewrite !dd_get_insert_ne.
Qed.

(** * Identifiers seen for the first time *)

Lemma handle_event_store st event :
  current_values (handle_event st event).1.1 = current_values st
  /\ change_times (handle_event st event).1.1 = change_times st.
Proof.
  destruct event as [|key|y|button mouse_x mouse_y|]; simpl; try done.
  - destruct key; simpl; try done.
    + unfold toggle_calibration. by repeat case_match.
    + by case_match.
  - by case_match.
  - repeat case_match; try done. simplify_eq.
    unfold select_cell in *. by repeat case_match; simplify_eq.
Qed.

Lemma draw_grid_store st now :
  current_values (draw_grid st now) = current_values st
  /\ change_times (draw_grid st now) = change_times st.
Proof. unfold draw_grid. by case_match. Qed.

Lemma listed_only_final t0 steps : listed_only (final t0 steps).
Proof.
  unfold final. apply (run_preserves listed_only).
  - intros st raw now Hst k.
    rewrite read_serial_step_pid_list. unfold read_serial_step.
    destruct (parse_can_message _) as [[can_id bv]|]; [|apply Hst].
    destruct (record_frame_shape st can_id bv now)
      as (pids & vals & times & last & total & ->). simpl.
    intros Hk.
    assert (k <> can_id /\ k ∉ pid_list st) as [Hne Hk'].
    { case_decide as Hin; [split; [by intros ->|done]|].
      apply not_elem_of_app in Hk as [Hk1 Hk2].
      split; [|done]. by intros ->; apply Hk2, list_elem_of_singleton. }
    rewrite !lookup_insert_ne by done. by apply Hst.
  - intros st event Hst k. rewrite handle_event_pid_list.
    destruct (handle_event_store st event) as [-> ->]. apply Hst.
  - intros st now Hst k. rewrite draw_grid_pid_list.
    destruct (draw_grid_store st now) as [-> ->]. apply Hst.
  - intros k _. simpl. by rewrite !lookup_empty.
Qed.

(** The first frame of an identifier, in any run: the identifier goes to
    the end of the list, its slots take the frame's bytes, and a slot is
    stamped with the current time exactly when its byte is not 0; a byte 0
    leaves the stamp at 0, which the display reads as never changed. *)
Theorem first_frame_of_identifier t0 steps raw now can_id byte_values :
  let st := final t0 steps in
  let st' := (read_serial_step st raw now).1 in
  parse_can_message (PyStr.strip raw) = Some (can_id, byte_values) ->
  can_id ∉ pid_list st ->
  pid_list st' = (pid_list st ++ [can_id])%list
  /\ forall i new,
       byte_values !! i = Some new ->
       value_at st' (can_id, i) = Some new
       /\ changed_at st' (can_id, i) =
            Some (if decide (new = 0) then 0%Q else now).
Proof.
  intros st st' Hparse Hnew. split.
  - unfold st'. rewrite read_serial_step_pid_list, Hparse. by case_decide.
  - intros i new Hi.
    destruct (listed_only_final t0 steps can_id Hnew) as [Hv Ht].
    fold st in Hv, Ht.
    pose proof (parse_can_message_length _ _ _ Hparse) as Hlen.
    assert (i < 8)%nat as Hi8 by (apply lookup_lt_Some in Hi; lia).
    assert (value_at st (can_id, i) = Some 0) as Hold.
    { unfold value_at, values_row, dd_get. simpl. rewrite Hv. simpl.
      by apply lookup_replicate_2. }
    assert (changed_at st (can_id, i) = Some 0%Q) as Hch.
    { unfold changed_at, times_row, dd_get. simpl. rewrite Ht. simpl.
      by apply lookup_replicate_2. }
    destruct (read_serial_step_slot st raw now _ _ i 0 new
                (wf_final t0 steps) Hparse Hold Hi) as [Hv' Hc'].
    fold st' in Hv', Hc'. split; [done|]. rewrite Hc', Hch.
    by repeat case_decide; subst.
Qed.

Lemma first_frame_of_identifier_witness :
  let st' :=
    (read_serial_step (final 0 demo_steps)
       "1,2,0xC,8,0,0x10,0,0,0,0,0,0" 9).1 in
  pid_list st' = ["0xA"; "0xB"; "0xC"]
  /\ changed_at st' ("0xC", 0%nat) = Some 0%Q
  /\ changed_at st' ("0xC", 1%nat) = Some 9%Q.
Proof.
  cbv zeta.
  destruct (first_frame_of_identifier 0 demo_steps
              "1,2,0xC,8,0,0x10,0,0,0,0,0,0" 9 "0xC" [0; 16; 0; 0; 0; 0; 0; 0]
              eq_refl) as [Hp Hs].
  { apply (bool_decide_unpack _). by vm_compute. }
  split; [exact Hp|]. split.
  - by destruct (Hs 0%nat 0 eq_refl) as [_ ->].
  - by destruct (Hs 1%nat 16 eq_refl) as [_ ->].
Defined.

(** * Scrolling *)

Lemma read_serial_step_scroll st raw now :
  scroll_offset (read_serial_step st raw now).1 = scroll_offset st
  /\ (length (pid_list st)
      <= length (pid_list (read_serial_step st raw now).1))%nat.
Proof.
  split.
  - unfold read_serial_step.
    destruct (parse_can_message _) as [[can_id bv]|]; [|done].
    by destruct (record_frame_shape st can_id bv now)
      as (pids & vals & times & last & total & ->).
  - rewrite read_serial_step_pid_list.
    destruct (parse_can_message _) as [[can_id bv]|]; [|done].
    case_decide; [done|]. rewrite length_app. lia.
Qed.

Lemma select_cell_scroll st cell :
  scroll_offset (select_cell st cell).1.1 = scroll_offset st.
Proof. unfold select_cell. by repeat case_match. Qed.

Lemma scroll_ok_final t0 steps : scroll_ok (final t0 steps).
Proof.
  unfold final. apply (run_preserves scroll_ok).
  - intros st raw now Hst. unfold scroll_ok, max_offset in *.
    destruct (read_serial_step_scroll st raw now) as [-> Hlen]. lia.
  - intros st event Hst. unfold scroll_ok, max_offset in *.
    rewrite handle_event_pid_list.
    destruct event as [|key|y|button mouse_x mouse_y|]; simpl; try done.
    + destruct key; simpl; try done; try (unfold max_offset; lia).
      * unfold toggle_calibration. by repeat case_match.
      * by case_match.
    + case_match; simpl; unfold max_offset; lia.
    + repeat case_match; try done. by rewrite select_cell_scroll.
  - intros st now Hst. unfold scroll_ok, max_offset, draw_grid in *.
    by case_match.
  - unfold scroll_ok, max_offset. simpl. unfold max_visible_rows. simpl. lia.
Qed.

(** In every run the scroll offset stays between 0 and
    [max(0, len(pid_list) - max_visible_rows)]. *)
Theorem scroll_offset_within_bounds t0 steps :
  0 <= scroll_offset (final t0 steps)
       <= Z.max 0 (Z.of_nat (length (pid_list (final t0 steps)))
                   - max_visible_rows).
Proof. apply scroll_ok_final. Qed.

(** * Drawing and hit-testing *)

Lemma py_getitem_nonneg {A} (l : list A) i :
  0 <= i -> py_getitem l i = l !! Z.to_nat i.
Proof.
  intros Hi. unfold py_getitem.
  by destruct (Z.leb_spec 0 i); [|lia].
Qed.

(** The rows drawn from the indices [a, a + n), all of them in the list:
    none is cut off, none raises, and row [k] shows the identifier at
    [a + k]. *)
Lemma draw_rows_seqZ (pids : list string) (m : nat) : forall a r0,
  0 <= a -> a + Z.of_nat m <= Z.of_nat (length pids) ->
  (draw_rows pids r0 (seqZ a (Z.of_nat m))).2 = true
  /\ length (draw_rows pids r0 (seqZ a (Z.of_nat m))).1 = m
  /\ forall r pid,
       (r, pid) ∈ (draw_rows pids r0 (seqZ a (Z.of_nat m))).1 <->
       exists k, 0 <= k < Z.of_nat m /\ r = r0 + k
                 /\ pids !! Z.to_nat (a + k) = Some pid.
Proof.
  induction m as [|m IH]; intros a r0 Ha Hlen.
  - simpl. split; [done|]. split; [done|]. intros r pid. split.
    + by intros ?%elem_of_nil.
    + intros (k & ? & _). lia.
  - rewrite seqZ_cons by lia. cbn [draw_rows].
    destruct (Z.geb_spec a (Z.of_nat (length pids))) as [|_]; [lia|].
    rewrite py_getitem_nonneg by done.
    destruct (pids !! Z.to_nat a) as [pid0|] eqn:Hpid0;
      [|apply lookup_ge_None in Hpid0; lia].
    replace (Z.pred (Z.of_nat (S m))) with (Z.of_nat m) by lia.
    destruct (IH (Z.succ a) (r0 + 1)) as (Hok & Hl & Hin); [lia..|].
    destruct (draw_rows pids (r0 + 1) (seqZ (Z.succ a) (Z.of_nat m)))
      as [rows ok]. simpl in *.
    split; [done|]. split; [by rewrite Hl|]. intros r pid. split.
    + intros [[= -> ->]|Hr]%elem_of_cons.
      * exists 0. rewrite !Z.add_0_r. split; [lia|]. split; [lia|done].
      * apply Hin in Hr as (k & Hk & -> & Hp). exists (k + 1).
        split; [lia|]. split; [lia|].
        by replace (a + (k + 1)) with (Z.succ a + k) by lia.
    + intros (k & Hk & -> & Hp). destruct (decide (k = 0)) as [->|Hk0].
      * rewrite Z.add_0_r in *. rewrite Hpid0 in Hp. injection Hp as ->.
        by left.
      * right. apply Hin. exists (k - 1). split; [lia|]. split; [lia|].
        by replace (Z.succ a + (k - 1)) with (a + k) by lia.
Qed.

(** The rows of a state with a scroll offset within its bounds. *)
Lemma drawn_rows_spec st :
  scroll_ok st ->
  (drawn_rows st).2 = true
  /\ length (drawn_rows st).1 =
       Z.to_nat (Z.min (Z.of_nat (length (pid_list st))) max_visible_rows)
  /\ forall r pid,
       (r, pid) ∈ (drawn_rows st).1 <->
       0 <= r < max_visible_rows
       /\ pid_list st !! Z.to_nat (scroll_offset st + r) = Some pid.
Proof.
  intros [Hlo Hhi]. unfold max_offset in Hhi. unfold drawn_rows.
  set (len := Z.of_nat (length (pid_list st))) in *.
  set (n := Z.min (scroll_offset st + max_visible_rows) len - scroll_offset st).
  assert (0 < max_visible_rows) as Hmv by by vm_compute.
  assert (0 <= n) as Hn by (unfold n; lia).
  destruct (draw_rows_seqZ (pid_list st) (Z.to_nat n) (scroll_offset st) 0)
    as (Hok & Hl & Hin); [lia|fold len; lia|].
  rewrite Z2Nat.id in * by done.
  split; [done|]. split; [rewrite Hl; unfold n; lia|].
  intros r pid. rewrite Hin. split.
  - intros (k & Hk & -> & Hp). rewrite Z.add_0_l. split; [unfold n in Hk; lia|done].
  - intros ([Hr0 Hr] & Hp). exists r. split; [|by split; [lia|]].
    apply lookup_lt_Some in Hp. unfold n. fold len. lia.
Qed.

(** In every run the grid draws [min(len(pid_list), max_visible_rows)]
    rows and the loop raises nothing: scrolling never leaves an empty row
    while identifiers remain. *)
Theorem drawn_rows_fill_the_grid t0 steps :
  (drawn_rows (final t0 steps)).2 = true
  /\ Z.of_nat (length (drawn_rows (final t0 steps)).1) =
       Z.min (Z.of_nat (length (pid_list (final t0 steps)))) max_visible_rows.
Proof.
  destruct (drawn_rows_spec (final t0 steps) (scroll_ok_final t0 steps))
    as (Hok & Hl & _).
  split; [done|]. rewrite Hl. assert (0 < max_visible_rows) by by vm_compute.
  lia.
Qed.

Lemma div_in_cell a w p k :
  0 < w -> a + k * w <= p < a + k * w + w -> (p - a) / w = k.
Proof.
  intros Hw Hp. symmetry. apply (Z.div_unique_pos _ _ _ (p - a - k * w)); lia.
Qed.

(** In every run a click lands on a cell exactly when the point lies in the
    rectangle that [draw_grid] draws for that cell. *)
Theorem click_hits_the_drawn_cell t0 steps mouse_x mouse_y (cell : Cell) :
  let st := final t0 steps in
  get_cell_at_position st mouse_x mouse_y = Some cell <->
  exists rect, (rect, cell) ∈ drawn_cells st
               /\ collidepoint rect mouse_x mouse_y = true.
Proof.
  intros st.
  pose proof (scroll_ok_final t0 steps) as Hscroll. fold st in Hscroll.
  destruct (drawn_rows_spec st Hscroll) as (_ & _ & Hrows).
  pose proof Hscroll as [Hlo _].
  assert (max_visible_rows = 29) as Hmv by reflexivity.
  unfold drawn_cells. split.
  - unfold get_cell_at_position, START_X, START_Y, PID_COLUMN_WIDTH,
      HEADER_HEIGHT, CELL_WIDTH, CELL_HEIGHT. rewrite Hmv.
    destruct (Z.ltb_spec mouse_x 100); [done|].
    destruct (Z.ltb_spec mouse_y 40); [done|]. cbn [orb].
    destruct (Z.geb_spec mouse_y (40 + 29 * 24)); [done|].
    set (col := (mouse_x - 100) / 80). set (row := (mouse_y - 40) / 24).
    destruct (Z.ltb_spec col 0); [done|].
    destruct (Z.geb_spec col 8); [done|]. cbn [orb].
    destruct (Z.ltb_spec (row + scroll_offset st) 0); [done|].
    destruct (Z.geb_spec (row + scroll_offset st)
                (Z.of_nat (length (pid_list st)))); [done|]. cbn [orb].
    destruct (pid_list st !! Z.to_nat (row + scroll_offset st))
      as [pid|] eqn:Hpid; [|done].
    intros [= <-].
    assert (0 <= row < 29) as Hrow.
    { unfold row. split; [apply Z.div_pos; lia|].
      apply Z.div_lt_upper_bound; lia. }
    exists (cell_rect row col). split.
    + apply list_elem_of_In, in_flat_map. exists (row, pid). split.
      * apply list_elem_of_In, Hrows. split; [lia|].
        by rewrite Z.add_comm.
      * apply in_map_iff. exists (Z.to_nat col).
        split; [cbn [fst snd]; by rewrite Z2Nat.id by lia|apply in_seq; lia].
    + unfold collidepoint, cell_rect, START_X, START_Y, PID_COLUMN_WIDTH,
        HEADER_HEIGHT, CELL_WIDTH, CELL_HEIGHT.
      pose proof (Z.mul_div_le (mouse_x - 100) 80 ltac:(lia)) as Hx1.
      pose proof (Z.mul_succ_div_gt (mouse_x - 100) 80 ltac:(lia)) as Hx2.
      pose proof (Z.mul_div_le (mouse_y - 40) 24 ltac:(lia)) as Hy1.
      pose proof (Z.mul_succ_div_gt (mouse_y - 40) 24 ltac:(lia)) as Hy2.
      fold col in Hx1, Hx2. fold row in Hy1, Hy2.
      rewrite !andb_true_iff, !Z.leb_le, !Z.ltb_lt. lia.
  - intros (rect & Hin & Hhit).
    apply list_elem_of_In, in_flat_map in Hin as ([r pid] & Hr & Hc).
    apply list_elem_of_In, Hrows in Hr as [Hr Hpid].
    apply in_map_iff in Hc as (c & [= <- <-] & Hc%in_seq). simpl in *.
    unfold collidepoint, cell_rect, START_X, START_Y, PID_COLUMN_WIDTH,
      HEADER_HEIGHT, CELL_WIDTH, CELL_HEIGHT in Hhit.
    rewrite !andb_true_iff, !Z.leb_le, !Z.ltb_lt in Hhit.
    unfold get_cell_at_position, START_X, START_Y, PID_COLUMN_WIDTH,
      HEADER_HEIGHT, CELL_WIDTH, CELL_HEIGHT. rewrite Hmv in *.
    destruct (Z.ltb_spec mouse_x 100); [lia|].
    destruct (Z.ltb_spec mouse_y 40); [lia|]. cbn [orb].
    destruct (Z.geb_spec mouse_y (40 + 29 * 24)); [lia|].
    rewrite (div_in_cell 100 80 mouse_x (Z.of_nat c)) by lia.
    rewrite (div_in_cell 40 24 mouse_y r) by lia.
    destruct (Z.ltb_spec (Z.of_nat c) 0); [lia|].
    destruct (Z.geb_spec (Z.of_nat c) 8); [lia|]. cbn [orb].
    pose proof (lookup_lt_Some _ _ _ Hpid) as Hlt.
    destruct (Z.ltb_spec (r + scroll_offset st) 0); [lia|].
    destruct (Z.geb_spec (r + scroll_offset st)
                (Z.of_nat (length (pid_list st)))); [lia|]. cbn [orb].
    rewrite Z.add_comm, Hpid. by rewrite Nat2Z.id.
Qed.

(** * Clicking twice *)

Lemma select_cell_selected st (cell : Cell) :
  selected_cells (select_cell st cell).1.1 =
  if decide (cell ∈ selected_cells st)
  then py_remove cell (selected_cells st)
  else if (length (selected_cells st) <? 2)%nat
       then (selected_cells st ++ [cell])%list
       else (drop 1 (selected_cells st) ++ [cell])%list.
Proof.
  unfold select_cell. case_decide; [done|].
  destruct (length (selected_cells st) <? 2)%nat eqn:Hlen.
  - cbv zeta. by case_match.
  - destruct (selected_cells st) as [|old_cell rest]; [done|].
    cbv zeta. cbn [drop]. by case_match.
Qed.

Lemma py_remove_not_in (c : Cell) l : c ∉ l -> py_remove c l = l.
Proof.
  induction l as [|x l IH]; [done|]. intros [Hne Hl]%not_elem_of_cons.
  simpl. case_decide; [by subst|]. by rewrite IH.
Qed.

Lemma py_remove_app_last (c : Cell) l : c ∉ l -> py_remove c (l ++ [c]) = l.
Proof.
  induction l as [|x l IH]; intros Hc; simpl.
  - by case_decide.
  - apply not_elem_of_cons in Hc as [Hne Hl].
    case_decide; [by subst|]. by rewrite IH.
Qed.

Lemma py_remove_NoDup_not_in (c : Cell) l : NoDup l -> c ∉ py_remove c l.
Proof.
  induction 1 as [|x l Hx Hl IH]; simpl; [apply not_elem_of_nil|].
  case_decide as Heq; [by subst|].
  apply not_elem_of_cons. split; [done|exact IH].
Qed.

(** What two clicks on the same cell do to a selection of at most two
    different cells: a cell that was not selected, with room left, leaves
    the selection as it was; a cell that was not selected, with two cells
    selected, leaves only the second of them; a cell that was selected comes
    back as the last one. *)
Theorem click_twice_on_a_cell st (cell : Cell) :
  NoDup (selected_cells st) -> (length (selected_cells st) <= 2)%nat ->
  let sel := selected_cells st in
  let sel2 := selected_cells (select_cell (select_cell st cell).1.1 cell).1.1 in
  (cell ∉ sel -> (length sel < 2)%nat -> sel2 = sel)
  /\ (cell ∉ sel -> length sel = 2%nat -> sel2 = drop 1 sel)
  /\ (cell ∈ sel -> sel2 = (py_remove cell sel ++ [cell])%list).
Proof.
  intros Hnd Hlen sel sel2. subst sel2.
  rewrite select_cell_selected. rewrite (select_cell_selected st). subst sel.
  generalize dependent (selected_cells st). intros sel Hnd Hlen.
  split; [|split].
  - intros Hin Hlt. rewrite (decide_False (P := cell ∈ sel)) by done.
    apply Nat.ltb_lt in Hlt as ->.
    rewrite decide_True by (apply elem_of_app; right; by left).
    by apply py_remove_app_last.
  - intros Hin Heq. rewrite (decide_False (P := cell ∈ sel)) by done.
    assert ((length sel <? 2)%nat = false) as -> by (apply Nat.ltb_ge; lia).
    rewrite decide_True by (apply elem_of_app; right; by left).
    apply py_remove_app_last. intros Hd. apply Hin.
    by eapply subseteq_drop.
  - intros Hin. rewrite (decide_True (P := cell ∈ sel)) by done.
    rewrite decide_False by by apply py_remove_NoDup_not_in.
    assert ((length (py_remove cell sel) <? 2)%nat = true) as ->; [|done].
    apply Nat.ltb_lt.
    assert (length (py_remove cell sel) < length sel)%nat; [|lia].
    clear -Hin. induction sel as [|x l IH]; [by apply elem_of_nil in Hin|].
    simpl. case_decide; [lia|]. simpl.
    apply elem_of_cons in Hin as [->|Hin]; [done|]. specialize (IH Hin). lia.
Qed.

Lemma click_twice_on_a_cell_witness :
  selected_cells
    (select_cell (select_cell (final 0 demo_steps) ("0xA", 6%nat)).1.1
       ("0xA", 6%nat)).1.1
  = [("0xB", 7%nat); ("0xA", 6%nat)].
Proof.
  assert (NoDup (selected_cells (final 0 demo_steps))) as Hnd.
  { apply (bool_decide_unpack _). by vm_compute. }
  destruct (click_twice_on_a_cell (final 0 demo_steps) ("0xA", 6%nat) Hnd)
    as (_ & _ & H).
  { vm_compute. lia. }
  rewrite H; [by vm_compute|]. apply (bool_decide_unpack _). by vm_compute.
Defined.

(** * Events after a quit *)

Lemma handle_events_app st evs1 evs2 :
  handle_events st (evs1 ++ evs2) =
  let '(st1, out1, flow) := handle_events st evs1 in
  match flow with
  | Continue =>
      let '(st2, out2, flow2) := handle_events st1 evs2 in
      (st2, (out1 ++ out2)%list, flow2)
  | _ => (st1, out1, flow)
  end.
Proof.
  revert st. induction evs1 as [|ev evs1 IH]; intros st; simpl.
  - by destruct (handle_events st evs2) as [[st2 out2] flow2].
  - destruct (handle_event st ev) as [[st1 out1] flow].
    destruct flow; [|done..]. rewrite IH.
    destruct (handle_events st1 evs1) as [[st2 out2] flow2].
    destruct flow2; [|done..].
    destruct (handle_events st2 evs2) as [[st3 out3] flow3].
    by rewrite app_assoc.
Qed.

(** The events that follow a [QUIT] or an Escape key in one call of
    [handle_events] are never handled: the call ends in the state and with
    the output of the events before it, whatever follows. *)
Theorem events_after_quit_are_dropped st evs1 evs2 :
  let r := handle_events st evs1 in
  let stopped :=
    (r.1.1, r.1.2, match r.2 with Continue => Stop | flow => flow end) in
  handle_events st (evs1 ++ QUIT :: evs2) = stopped
  /\ handle_events st (evs1 ++ KEYDOWN K_ESCAPE :: evs2) = stopped.
Proof.
  cbv zeta. rewrite !handle_events_app.
  destruct (handle_events st evs1) as [[st1 out1] flow]. simpl.
  destruct flow; by rewrite ?app_nil_r.
Qed.

(** * When the fit divides by zero *)







(** * The displayed character *)

(** [byte_to_ascii_display] returns a printable ASCII character for every
    integer: the character whose code is the value when the value is
    printable, and the dot otherwise. *)
Theorem byte_to_ascii_display_is_printable byte_value :
  32 <= PyStr.ord (byte_to_ascii_display byte_value) <= 126
  /\ (PyStr.ord (byte_to_ascii_display byte_value) = byte_value <->
      is_printable_ascii byte_value = true)
  /\ (is_printable_ascii byte_value = false ->
      byte_to_ascii_display byte_value = "."%char).
Proof.
  unfold byte_to_ascii_display, is_printable_ascii.
  destruct ((32 <=? byte_value) && (byte_value <=? 126)) eqn:Hp.
  - apply andb_prop in Hp as [H1%Z.leb_le H2%Z.leb_le].
    rewrite ord_ascii_of_byte by lia. split; [lia|]. by split.
  - split; [by vm_compute|]. split; [|done].
    split; [|done]. change (PyStr.ord ".") with 46. intros <-. done.
Qed.

(** * The single-cell panel *)




(** * The colour of a cell *)

Lemma selection_ok_final t0 steps : selection_ok (final t0 steps).
Proof.
  destruct (run_invariant steps (init t0) (invariant_init t0))
    as (st' & out & flow & Hrun & (_ & Hsel & _) & _).
  unfold final. by rewrite Hrun.
Qed.

(** In every run a selected cell is drawn in its selection colour, whatever
    the display mode and the age of its last change: orange when it is the
    only one, purple for the first and cyan for the second of two; and
    [get_cell_color] raises nothing on the cells of the grid. *)
Theorem selected_cells_keep_their_colour t0 steps now :
  let st := final t0 steps in
  (forall c : Cell, selected_cells st = [c] ->
     get_cell_color st now c.1 c.2 = Ok (Plain ORANGE))
  /\ (forall c1 c2 : Cell, selected_cells st = [c1; c2] ->
        get_cell_color st now c1.1 c1.2 = Ok (Plain PURPLE)
        /\ get_cell_color st now c2.1 c2.2 = Ok (Plain CYAN))
  /\ (forall pid i, (i < 8)%nat ->
        exists shade, get_cell_color st now pid i = Ok shade).
Proof.
  intros st. pose proof (selection_ok_final t0 steps) as [Hnd Hlen].
  pose proof (wf_final t0 steps) as Hwf. fold st in Hnd, Hlen, Hwf.
  split; [|split].
  - intros [pid i] Hsel. unfold get_cell_color. simpl. rewrite Hsel.
    rewrite decide_True by by left. done.
  - intros [pid1 i1] [pid2 i2] Hsel. rewrite Hsel in Hnd.
    apply NoDup_cons in Hnd as [Hne _].
    apply not_elem_of_cons in Hne as [Hne _].
    unfold get_cell_color. simpl. rewrite Hsel. split.
    + rewrite decide_True by by left. simpl. by rewrite decide_True.
    + rewrite decide_True by (right; by left). simpl.
      rewrite decide_False by done. by rewrite decide_True.
  - intros pid i Hi. unfold get_cell_color.
    case_decide as Hin.
    { destruct (length (selected_cells st) =? 1)%nat; [by eexists|].
      assert (is_Some (py_index (pid, i) (selected_cells st))) as [k ->].
      { clear -Hin. induction (selected_cells st) as [|x l IH];
          [by apply elem_of_nil in Hin|].
        simpl. case_decide as Hx; [by eexists|].
        apply elem_of_cons in Hin as [Heq|Hin]; [congruence|].
        destruct (IH Hin) as [k ->]. by eexists. }
      destruct (k =? 0)%nat; by eexists. }
    destruct (value_at_is_Some st (pid, i) Hwf Hi) as [v Hv].
    assert (is_Some (changed_at st (pid, i))) as [t Ht].
    { apply lookup_lt_is_Some. unfold changed_at. simpl.
      by rewrite times_row_length. }
    rewrite Hv, Ht. destruct (display_mode st); [by eexists|].
    destruct (is_printable_ascii v); [|by eexists].
    destruct (_ && _); by eexists.
Qed.

(** * The message rate *)

Lemma handle_event_rate st event :
  last_message_count (handle_event st event).1.1 = last_message_count st
  /\ messages_per_second (handle_event st event).1.1 = messages_per_second st
  /\ total_messages (handle_event st event).1.1 = total_messages st.
Proof.
  destruct event as [|key|y|button mouse_x mouse_y|]; simpl; try done.
  - destruct key; simpl; try done.
    + unfold toggle_calibration. by repeat case_match.
    + by case_match.
  - by case_match.
  - repeat case_match; try done. simplify_eq.
    unfold select_cell in *. by repeat case_match; simplify_eq.
Qed.

Lemma read_serial_step_rate st raw now :
  last_message_count (read_serial_step st raw now).1 = last_message_count st
  /\ messages_per_second (read_serial_step st raw now).1
     = messages_per_second st
  /\ total_messages st <= total_messages (read_serial_step st raw now).1.
Proof.
  unfold read_serial_step.
  destruct (parse_can_message _) as [[can_id bv]|]; [|done].
  unfold record_frame, store_frame.
  destruct (record_bytes _ _ _ _ _) as [[vals times] outcome].
  destruct outcome; [|done].
  match goal with |- context [log_selection ?s ?c] =>
    destruct (log_selection_frame s c) as (last & Hlast);
    destruct (log_selection s c) as [[st2 out] ok] end.
  simpl in Hlast. subst st2. destruct ok; simpl; lia.
Qed.

(** In every run the count taken at the last rate update is between 0 and
    the message counter, and the displayed rate is never negative. *)
Theorem message_rate_never_negative t0 steps :
  0 <= last_message_count (final t0 steps) <= total_messages (final t0 steps)
  /\ 0 <= messages_per_second (final t0 steps).
Proof.
  unfold final. apply (run_preserves rate_ok).
  - intros st raw now [Hl Hm]. unfold rate_ok.
    destruct (read_serial_step_rate st raw now) as (-> & -> & Ht). lia.
  - intros st event [Hl Hm]. unfold rate_ok.
    destruct (handle_event_rate st event) as (-> & -> & ->). lia.
  - intros st now [Hl Hm]. unfold rate_ok, draw_grid.
    case_match; simpl; lia.
  - unfold rate_ok. simpl. lia.
Qed.

(** * The fields that the parser reads *)

Lemma split_comma_has_comma s :
  (2 <= length (PyStr.split_comma s))%nat -> has_comma s = true.
Proof.
  induction s as [|c s IH]; simpl; [lia|].
  destruct (Ascii.eqb c ","); [done|]. simpl.
  destruct (PyStr.split_comma s) as [|f fs]; simpl in *; [lia|]. exact IH.
Qed.

Lemma comma_not_space c : Ascii.eqb c "," = true -> PyStr.isspace c = false.
Proof. intros ->%Ascii.eqb_eq. reflexivity. Qed.

Lemma lstrip_has_comma s : has_comma s = true -> has_comma (PyStr.lstrip s) = true.
Proof.
  induction s as [|c s IH]; [done|]. simpl.
  destruct (Ascii.eqb c ",") eqn:Hc.
  - intros _. rewrite (comma_not_space c Hc). simpl. by rewrite Hc.
  - simpl. intros Hs. destruct (PyStr.isspace c); [by apply IH|].
    simpl. by rewrite Hc.
Qed.

Lemma rstrip_has_comma s : has_comma s = true -> PyStr.truthy (PyStr.rstrip s) = true.
Proof.
  induction s as [|c s IH]; [done|]. simpl.
  destruct (Ascii.eqb c ",") eqn:Hc; simpl.
  - intros _. rewrite (comma_not_space c Hc). by destruct (PyStr.rstrip s).
  - intros Hs. specialize (IH Hs). by destruct (PyStr.rstrip s).
Qed.

(** A line with two fields or more is not blank. *)
Lemma two_fields_not_blank line :
  (2 <= length (PyStr.split_comma line))%nat ->
  PyStr.truthy (PyStr.strip line) = true.
Proof.
  intros H%split_comma_has_comma. by apply rstrip_has_comma, lstrip_has_comma.
Qed.

(** The parser reads field 2 and the fields 4 to 11 only: two lines of 8
    fields or more that are no comments and agree on these fields give the
    same result, whatever their fields 0, 1 and 3 (the data length among
    them) and their fields from 12 on. *)
Theorem parse_reads_identifier_and_data_fields_only line line' :
  PyStr.startswith line "#" = false ->
  PyStr.startswith line' "#" = false ->
  (8 <= length (PyStr.split_comma line))%nat ->
  (8 <= length (PyStr.split_comma line'))%nat ->
  PyStr.split_comma line !! 2%nat = PyStr.split_comma line' !! 2%nat ->
  (forall i, (4 <= i < 12)%nat ->
     PyStr.split_comma line !! i = PyStr.split_comma line' !! i) ->
  parse_can_message line = parse_can_message line'.
Proof.
  intros Hc Hc' Hl Hl' H2 Hdata. unfold parse_can_message.
  rewrite Hc, Hc', !two_fields_not_blank by lia. simpl.
  apply Nat.ltb_ge in Hl as ->. apply Nat.ltb_ge in Hl' as ->.
  rewrite H2.
  assert (parse_bytes (PyStr.split_comma line)
          = parse_bytes (PyStr.split_comma line')) as ->; [|done].
  unfold parse_bytes. apply Forall_mapM_ext, Forall_forall.
  intros i Hi%elem_of_seq. unfold parse_byte. rewrite Hdata by lia. done.
Qed.

Lemma parse_reads_identifier_and_data_fields_only_witness :
  parse_can_message "77,can0,0x3C4,2,0x01,0x02,,,,,0x41,0x42,extra"
  = Some ("0x3C4", [1; 2; 0; 0; 0; 0; 65; 66]).
Proof.
  rewrite (parse_reads_identifier_and_data_fields_only
             "77,can0,0x3C4,2,0x01,0x02,,,,,0x41,0x42,extra"
             "1,2,0x3C4,8,0x01,0x02,,,,,0x41,0x42").
  - reflexivity.
  - reflexivity.
  - reflexivity.
  - simpl. lia.
  - simpl. lia.
  - reflexivity.
  - intros i Hi.
    assert (i = 4 \/ i = 5 \/ i = 6 \/ i = 7 \/ i = 8 \/ i = 9
            \/ i = 10 \/ i = 11)%nat as Hcases by lia.
    repeat (destruct Hcases as [->|Hcases]; [reflexivity|]).
    subst i. reflexivity.
Defined.

(** * What the event handler leaves alone *)

(** A call of [handle_events] never writes the store, the identifier list,
    the message counter or the calibration list, whatever the events. *)
Theorem handle_events_leaves_the_store st events :
  let st' := (handle_events st events).1.1 in
  current_values st' = current_values st
  /\ change_times st' = change_times st
  /\ pid_list st' = pid_list st
  /\ total_messages st' = total_messages st
  /\ calibration_data st' = calibration_data st.
Proof.
  cbv zeta.
  apply (handle_events_preserves
           (fun s => current_values s = current_values st
                     /\ change_times s = change_times st
                     /\ pid_list s = pid_list st
                     /\ total_messages s = total_messages st
                     /\ calibration_data s = calibration_data st));
    [|done].
  intros s event (Hv & Ht & Hp & Hm & Hc).
  destruct (handle_event_store s event) as [-> ->].
  destruct (handle_event_rate s event) as (_ & _ & ->).
  rewrite handle_event_pid_list. do 4 (split; [done|]).
  rewrite <- Hc. clear.
  destruct event as [|key|y|button mouse_x mouse_y|]; simpl; try done.
  - destruct key; simpl; try done.
    + unfold toggle_calibration. by repeat case_match.
    + by case_match.
  - by case_match.
  - repeat case_match; try done. simplify_eq.
    unfold select_cell in *. by repeat case_match; simplify_eq.
Qed.

(** * The two-cell panel on a digit pair *)

(** With two cells selected whose displayed characters are digits, the
    legacy offset is the position minus 60 and the sum always gives a
    guess; the panel shows four lines: the ASCII pair, the HVAC reading and
    the printable note in green, then in gray the legacy offset for the
    positions 60 to 90, which hides the guess of the sum, and the guess of
    the sum for the other positions. *)
Theorem digit_pair_panel st (c1 c2 : Cell) b0 b1 :
  selected_cells st = [c1; c2] ->
  value_at st c1 = Some b0 -> value_at st c2 = Some b1 ->
  PyStr.isdigit (byte_to_ascii_display b0) = true ->
  PyStr.isdigit (byte_to_ascii_display b1) = true ->
  let position := 10 * (b0 - 48) + (b1 - 48) in
  info_panel_analysis st =
  Ok [(AsciiTwo (String (byte_to_ascii_display b0)
                   (String (byte_to_ascii_display b1) EmptyString)) b0 b1,
       GREEN);
      (description (hvac_position position), GREEN);
      (BothPrintable, GREEN);
      (if (60 <=? position) && (position <=? 90)
       then MathOffset (position - 60)
       else Minus40 "ADD" (b0 + b1),
       GRAY)].
Proof.
  intros Hsel H0 H1 Hd0 Hd1 position.
  unfold info_panel_analysis, calculate_temperature_values.
  rewrite Hsel, H0, H1, hvac_candidates_ok, Hd0, Hd1. cbn [andb].
  apply isdigit_display in Hd0, Hd1.
  assert (printable_summary b0 b1 = [mkCandidate BothPrintable 0 0 true])
    as ->.
  { unfold printable_summary, is_printable_ascii.
    destruct (Z.leb_spec 32 b0), (Z.leb_spec b0 126), (Z.leb_spec 32 b1),
      (Z.leb_spec b1 126); try lia. done. }
  assert (flat_map other_candidate (other_interpretations b0 b1) =
          [mkCandidate (Minus40 "ADD" (b0 + b1)) (celsius (b0 + b1 - 40))
             (b0 + b1 - 40) false]) as ->.
  { cbn. destruct (Z.ltb_spec (b0 + b1) 200); [|lia]. cbn.
    by destruct (Z.leb_spec 32 (b0 + b1 - 40)),
      (Z.leb_spec (b0 + b1 - 40) 120); try lia. }
  unfold legacy_offset.
  replace ((b0 - 54) * 10 + (b1 - 48)) with (position - 60)
    by (unfold position; lia).
  fold position. remember (hvac_position position) as h eqn:Hh.
  assert (is_primary h = true) as Hprim.
  { subst h. unfold hvac_position. by repeat case_match. }
  clear Hh.
  destruct (Z.leb_spec 60 position), (Z.leb_spec position 90),
    (Z.leb_spec 0 (position - 60)), (Z.leb_spec (position - 60) 30);
    try lia; cbn; by rewrite Hprim.
Qed.

Lemma digit_pair_panel_witness :
  let st :=
    final 0 [ReaderStep "1,2,0x3C4,8,0,0,0,0,0,0,0x37,0x32" 1;
             MainStep [MOUSEBUTTONDOWN 1 580 40; MOUSEBUTTONDOWN 1 660 40] 2] in
  info_panel_analysis st =
  Ok [(AsciiTwo "72" 55 50, GREEN); (HvacTemp 67 72, GREEN);
      (BothPrintable, GREEN); (MathOffset 12, GRAY)].
Proof.
  cbv zeta.
  rewrite (digit_pair_panel _ ("0x3C4", 6%nat) ("0x3C4", 7%nat) 55 50);
    reflexivity.
Defined.

(** * The stored values *)

Lemma parse_byte_nonneg parts i v : parse_byte parts i = Some v -> 0 <= v.
Proof.
  intros H%parse_byte_spec.
  destruct (parts !! (4 + i)%nat) as [f|]; [|lia].
  destruct (PyStr.startswith (PyStr.strip f) "0x") eqn:Ht; [|lia].
  by eapply int16_tagged_nonneg.
Qed.

Lemma parse_can_message_nonneg line can_id byte_values :
  parse_can_message line = Some (can_id, byte_values) ->
  Forall (fun v => 0 <= v) byte_values.
Proof.
  unfold parse_can_message. repeat case_match; try done.
  intros [= <- <-]. unfold parse_bytes in *.
  match goal with H : mapM _ _ = Some _ |- _ => apply mapM_Some_1 in H;
    induction H as [|i v idxs vs Hv _ IH]; constructor;
    [by eapply parse_byte_nonneg|done] end.
Qed.

Lemma record_bytes_nonneg byte_values : forall i now vals times,
  Forall (fun v => 0 <= v) byte_values -> Forall (fun v => 0 <= v) vals ->
  Forall (fun v => 0 <= v) (record_bytes i byte_values now vals times).1.1.
Proof.
  induction byte_values as [|new rest IH]; intros i now vals times Hb Hv;
    [done|].
  apply Forall_cons in Hb as [Hnew Hrest]. cbn [record_bytes].
  destruct (vals !! i); [|done].
  destruct (_ =? _); [by apply IH; [|apply Forall_insert]|].
  destruct (_ <? _)%nat; [|done]. by apply IH; [|apply Forall_insert].
Qed.

(** The row of values that a frame stores is the one its loop returns. *)
Lemma record_frame_values st can_id byte_values now :
  current_values (record_frame st can_id byte_values now).1 =
  <[can_id:=(record_bytes 0 byte_values now (values_row st can_id)
               (times_row st can_id)).1.1]> (current_values st).
Proof.
  unfold record_frame, store_frame.
  destruct (record_bytes _ _ _ _ _) as [[vals times] outcome].
  destruct outcome; [|done].
  match goal with |- context [log_selection ?s ?c] =>
    destruct (log_selection_frame s c) as (l & Hl);
    destruct (log_selection s c) as [[st2 out] ok] end.
  simpl in Hl. subst st2. by destruct ok.
Qed.

Lemma values_nonneg_final t0 steps : values_nonneg (final t0 steps).
Proof.
  unfold final. apply (run_preserves values_nonneg).
  - intros st raw now Hst. unfold read_serial_step.
    destruct (parse_can_message _) as [[can_id bv]|] eqn:Hparse; [|done].
    apply parse_can_message_nonneg in Hparse.
    intros k row. cbn [fst]. rewrite record_frame_values.
    destruct (decide (can_id = k)) as [->|Hne].
    + rewrite lookup_insert_eq. intros [= <-].
      apply record_bytes_nonneg; [done|]. unfold values_row, dd_get.
      destruct (current_values st !! k) eqn:E; simpl; [by eapply Hst|].
      by repeat constructor.
    + rewrite lookup_insert_ne by done. apply Hst.
  - intros st event Hst k row.
    destruct (handle_event_store st event) as [-> _]. apply Hst.
  - intros st now Hst k row.
    destruct (draw_grid_store st now) as [-> _]. apply Hst.
  - intros k row. simpl. by rewrite lookup_empty.
Qed.

(** In every run the stored values are never negative. *)
Theorem stored_values_never_negative t0 steps (c : Cell) v :
  value_at (final t0 steps) c = Some v -> 0 <= v.
Proof.
  pose proof (values_nonneg_final t0 steps) as Hnn.
  unfold value_at, values_row, dd_get. destruct c as [pid i]. simpl.
  destruct (current_values (final t0 steps) !! pid) as [row|] eqn:E; simpl.
  - intros Hv. specialize (Hnn pid row E).
    by eapply (Forall_lookup_1 _ _ _ _ Hnn).
  - intros Hv. apply lookup_replicate in Hv as [-> _]. done.
Qed.

Lemma stored_values_never_negative_witness :
  value_at (final 0 demo_steps) ("0xB", 7%nat) = Some 66 /\ 0 <= 66.
Proof.
  split; [reflexivity|].
  apply (stored_values_never_negative 0 demo_steps ("0xB", 7%nat)).
  reflexivity.
Defined.

(** * The log never repeats itself *)

Lemma logged_app out1 out2 : logged (out1 ++ out2) = (logged out1 ++ logged out2)%list.
Proof.
  induction out1 as [|o out1 IH]; [done|]. simpl. destruct o; simpl; by rewrite IH.
Qed.

Lemma last_or_app prev l1 l2 :
  last_or prev (l1 ++ l2) = last_or (last_or prev l1) l2.
Proof.
  unfold last_or. rewrite last_app. by destruct (last l2).
Qed.

Lemma no_repeat_app prev l1 l2 :
  no_repeat prev l1 -> no_repeat (last_or prev l1) l2 ->
  no_repeat prev (l1 ++ l2).
Proof.
  revert prev. induction l1 as [|x l1 IH]; intros prev; simpl; [done|].
  intros [Hx H1] H2. split; [done|]. apply IH; [done|].
  revert H2. unfold last_or. rewrite last_cons. by destruct (last l1).
Qed.

Lemma log_ok_trans st1 st2 st3 out1 out2 :
  log_ok st1 st2 out1 -> log_ok st2 st3 out2 -> log_ok st1 st3 (out1 ++ out2).
Proof.
  intros [H1 E1] [H2 E2]. unfold log_ok. rewrite logged_app, last_or_app.
  rewrite E1 in *. split; [by apply no_repeat_app|done].
Qed.

Lemma log_ok_silent st st' out :
  logged out = [] -> last_logged_combined st' = last_logged_combined st ->
  log_ok st st' out.
Proof. intros Ho Hl. unfold log_ok. by rewrite Ho, Hl. Qed.

Lemma read_serial_step_log_ok st raw now :
  log_ok st (read_serial_step st raw now).1 (read_serial_step st raw now).2.
Proof.
  unfold read_serial_step.
  destruct (parse_can_message _) as [[can_id bv]|]; [|by apply log_ok_silent].
  unfold record_frame, store_frame.
  destruct (record_bytes _ _ _ _ _) as [[vals times] outcome].
  destruct outcome; [|by apply log_ok_silent].
  match goal with |- context [log_selection ?s ?c] =>
    assert (log_ok st (log_selection s c).1.1 (log_selection s c).1.2) as Hlog;
    [|destruct (log_selection s c) as [[st2 out] ok]] end.
  { unfold log_selection. cbn [selected_cells set_store].
    repeat case_match; try by apply log_ok_silent.
    all: unfold log_ok; simpl; by split. }
  simpl in Hlog. destruct Hlog as [H1 H2]. by destruct ok.
Qed.

Lemma select_cell_log st (cell : Cell) :
  logged (select_cell st cell).1.2 = []
  /\ last_logged_combined (select_cell st cell).1.1 = last_logged_combined st.
Proof. unfold select_cell. by repeat case_match. Qed.

Lemma toggle_calibration_log st :
  logged (toggle_calibration st).1.2 = []
  /\ last_logged_combined (toggle_calibration st).1.1
     = last_logged_combined st.
Proof.
  unfold toggle_calibration, calculate_temperature_formula.
  by repeat case_match; simplify_eq.
Qed.

Lemma handle_event_log_ok st event :
  log_ok st (handle_event st event).1.1 (handle_event st event).1.2.
Proof.
  apply log_ok_silent.
  - destruct event as [|key|y|button mouse_x mouse_y|]; simpl; try done.
    + destruct key; simpl; try done.
      * apply toggle_calibration_log.
      * unfold handle_temperature_input. by repeat case_match.
    + by case_match.
    + repeat case_match; try done. apply select_cell_log.
  - destruct event as [|key|y|button mouse_x mouse_y|]; simpl; try done.
    + destruct key; simpl; try done.
      * apply toggle_calibration_log.
      * by case_match.
    + by case_match.
    + repeat case_match; try done. apply select_cell_log.
Qed.

Lemma handle_events_log_ok events : forall st,
  log_ok st (handle_events st events).1.1 (handle_events st events).1.2.
Proof.
  induction events as [|event rest IH]; intros st; simpl;
    [by apply log_ok_silent|].
  pose proof (handle_event_log_ok st event) as H1.
  destruct (handle_event st event) as [[st1 out1] flow]. simpl in H1.
  destruct flow; [|done..]. specialize (IH st1).
  destruct (handle_events st1 rest) as [[st2 out2] flow2]. simpl in *.
  by eapply log_ok_trans.
Qed.

Lemma step_log_ok st s : log_ok st (step st s).1.1 (step st s).1.2.
Proof.
  destruct s as [raw now|events now]; simpl.
  - pose proof (read_serial_step_log_ok st raw now) as H.
    by destruct (read_serial_step st raw now).
  - pose proof (handle_events_log_ok events st) as H.
    destruct (handle_events st events) as [[st1 out1] flow]. simpl in H.
    destruct flow; [|done..]. simpl. unfold draw_grid.
    by case_match.
Qed.

Lemma run_log_ok steps : forall st,
  log_ok st (run st steps).1.1 (run st steps).1.2.
Proof.
  induction steps as [|s rest IH]; intros st; simpl; [by apply log_ok_silent|].
  pose proof (step_log_ok st s) as H1.
  destruct (step st s) as [[st1 out1] flow]. simpl in H1.
  destruct flow; [|done..]. specialize (IH st1).
  destruct (run st1 rest) as [[st2 out2] flow2]. simpl in *.
  by eapply log_ok_trans.
Qed.

(** In every run no log line carries the combined value of the log line
    before it, and the reader's last logged value is that of the last log
    line; a change of selection does not reset it. *)
Theorem log_never_repeats_a_value t0 steps :
  no_repeat None (logged (console t0 steps))
  /\ last_logged_combined (final t0 steps)
     = last (logged (console t0 steps)).
Proof.
  destruct (run_log_ok steps (init t0)) as [H1 H2].
  split; [exact H1|]. unfold final, console. rewrite H2. unfold last_or.
  simpl. by destruct (last _).
Qed.

(** * The identifiers seen *)

Lemma handle_events_pid_list st events :
  pid_list (handle_events st events).1.1 = pid_list st.
Proof.
  apply (handle_events_preserves (fun s => pid_list s = pid_list st));
    [|done].
  intros s event Hs. by rewrite handle_event_pid_list.
Qed.

Lemma step_pid_list st s (can_id : string) :
  can_id ∈ pid_list (step st s).1.1 <->
  can_id ∈ pid_list st
  \/ exists raw now byte_values,
       s = ReaderStep raw now
       /\ parse_can_message (PyStr.strip raw) = Some (can_id, byte_values).
Proof.
  destruct s as [raw now|events now]; simpl.
  - pose proof (read_serial_step_pid_list st raw now) as H.
    destruct (read_serial_step st raw now) as [st1 out]. simpl in *.
    rewrite H. destruct (parse_can_message _) as [[id bv]|] eqn:Hp.
    + case_decide as Hin.
      * split; [by left|].
        intros [?|(? & ? & ? & [= <- <-] & Hp')]; [done|]. congruence.
      * rewrite elem_of_app, list_elem_of_singleton. split.
        -- intros [?| ->]; [by left|]. right. by eexists _, _, _.
        -- intros [?|(? & ? & ? & [= <- <-] & Hp')]; [by left|].
           right. congruence.
    + split; [by left|].
      intros [?|(? & ? & ? & [= <- <-] & Hp')]; [done|]. congruence.
  - pose proof (handle_events_pid_list st events) as H.
    destruct (handle_events st events) as [[st1 out1] flow]. simpl in H.
    assert (pid_list (match flow with
                      | Continue => (draw_grid st1 now, out1, Continue)
                      | _ => (st1, out1, flow)
                      end).1.1 = pid_list st) as ->.
    { destruct flow; simpl; by rewrite ?draw_grid_pid_list. }
    split; [by left|]. intros [?|(? & ? & ? & ? & _)]; done.
Qed.

Lemma run_pid_list steps (can_id : string) : forall st,
  can_id ∈ pid_list (run st steps).1.1 <->
  can_id ∈ pid_list st
  \/ exists raw now byte_values,
       ReaderStep raw now ∈ executed st steps
       /\ parse_can_message (PyStr.strip raw) = Some (can_id, byte_values).
Proof.
  induction steps as [|s rest IH]; intros st; simpl.
  - split; [by left|]. intros [?|(? & ? & ? & ?%elem_of_nil & _)]; done.
  - pose proof (step_pid_list st s can_id) as Hs.
    destruct (step st s) as [[st1 out1] flow]. simpl in Hs.
    assert (can_id ∈ pid_list st1 <->
            can_id ∈ pid_list st
            \/ exists raw now byte_values,
                 ReaderStep raw now ∈ [s]
                 /\ parse_can_message (PyStr.strip raw)
                    = Some (can_id, byte_values)) as Hs1.
    { rewrite Hs. split.
      - intros [?|(raw & now & bv & Heq & Hp)]; [by left|].
        right. exists raw, now, bv. split; [|done].
        apply list_elem_of_singleton. by symmetry.
      - intros [?|(raw & now & bv & Heq%list_elem_of_singleton & Hp)];
          [by left|]. right. exists raw, now, bv. by split. }
    destruct flow; [|done..].
    specialize (IH st1).
    destruct (run st1 rest) as [[st2 out2] flow2]. simpl in *.
    rewrite IH, Hs1. split.
    + intros [[?|(raw & now & bv & Hin & Hp)]|(raw & now & bv & Hin & Hp)].
      * by left.
      * right. exists raw, now, bv. split; [|done].
        apply list_elem_of_singleton in Hin as ->. by left.
      * right. exists raw, now, bv. split; [by right|done].
    + intros [?|(raw & now & bv & Hin & Hp)]; [by left; left|].
      apply elem_of_cons in Hin as [Heq|Hin].
      * left; right. exists raw, now, bv. split; [|done].
        by apply list_elem_of_singleton.
      * right. by exists raw, now, bv.
Qed.

(** In every run the identifier list holds exactly the identifiers of the
    frames that the reader has parsed. *)
Theorem pid_list_holds_the_identifiers_seen t0 steps (can_id : string) :
  can_id ∈ pid_list (final t0 steps) <->
  exists raw now byte_values,
    ReaderStep raw now ∈ executed (init t0) steps
    /\ parse_can_message (PyStr.strip raw) = Some (can_id, byte_values).
Proof.
  unfold final. rewrite run_pid_list. simpl. split; [|by right].
  by intros [?%elem_of_nil|?].
Qed.

(** * Examples *)

Example parse_frame :
  parse_can_message "1,2,0x3C4,8,0x00,0x00,0x00,0x00,0x00,0x00,0x41,0x42"
  = Some ("0x3C4", [0; 0; 0; 0; 0; 0; 65; 66]).
Proof. reflexivity. Qed.

Example parse_too_few_fields : parse_can_message "bad,data" = None.
Proof. reflexivity. Qed.

Example parse_bad_hex :
  parse_can_message "1,2,0x3C4,8,0x0G,0x00,0x00,0x00" = None.
Proof. reflexivity. Qed.

Example parse_short_frame_defaults :
  parse_can_message "1,2,0x3C4,8,0x1_F, 0x_a ,zz,"
  = Some ("0x3C4", [31; 10; 0; 0; 0; 0; 0; 0]).
Proof. reflexivity. Qed.

(** A third click evicts the first selected cell. *)
Example third_click_evicts :
  selected_cells
    (handle_event (final 0 demo_steps) (MOUSEBUTTONDOWN 1 100 40)).1.1
  = [("0xB", 7%nat); ("0xA", 0%nat)].
Proof. by vm_compute. Qed.

(** A second click on a selected cell removes it. *)
Example second_click_deselects :
  selected_cells
    (handle_event (final 0 demo_steps) (MOUSEBUTTONDOWN 1 580 40)).1.1
  = [("0xB", 7%nat)].
Proof. by vm_compute. Qed.

(** Three lines read, two frames counted. *)
Example counter_skips_malformed_line :
  total_messages
    (final 0 [ReaderStep "1,2,0xA,8,0,0,0,0,0,0,0x41,0" 1;
              ReaderStep "bad,data" 2;
              ReaderStep "1,2,0xB,8,0,0,0,0,0,0,0,0x42" 3])
  = 2.
Proof. by vm_compute. Qed.

(** The log follows the frames of the first selected identifier only. *)
Example log_of_a_session :
  console 0
    (demo_steps ++
     [MainStep [KEYDOWN K_t] 4;
      ReaderStep "1,2,0xB,8,0,0,0,0,0,0,0,0x30" 5;
      ReaderStep "1,2,0xA,8,0,0,0,0,0,0,0x36,0" 6;
      ReaderStep "1,2,0xA,8,0,0,0,0,0,0,0x36,0" 7])%list
  = [Selected 1 ("0xA", 6%nat) 65 "A";
     Selected 2 ("0xB", 7%nat) 66 "B";
     LoggingActivated;
     CalibrationOn;
     LogLine 54 "6" 48 "0" 13872;
     CalibrationPrompt 13872].
Proof. by vm_compute. Qed.

(** Two points with different combined values give the line through them:
    slope 3/20 and intercept 35. *)
Example fit_of_two_points :
  exists m b rows avg_error,
    calculate_temperature_formula [(50%Q, 100, 1%Q); (95%Q, 400, 2%Q)]
    = Ok [FormulaReport m b rows avg_error]
    /\ (m == 3 # 20)%Q /\ (b == 35)%Q /\ (avg_error == 0)%Q.
Proof. eexists _, _, _, _. split; [reflexivity|]. by vm_compute. Qed.
